(** * Manual clustering session of phy: clustering, undo/redo history, selection

    Shallow embedding of [phy/cluster/manual/session.py].  The [Session]
    orchestrator is translated from the source.  Its collaborators
    ([Clustering], [GlobalHistory], [Selector], [ClusterMetadata] and the
    [EventEmitter] base class) live in modules of the repository that are
    imported by [session.py] but whose code is not at hand; they are
    modelled from the written specification and marked as such. *)

From Stdlib Require Import String.
From Stdlib Require Import List ZArith Lia Bool Arith PeanoNat Sorted.
Import ListNotations.
Open Scope Z_scope.

(** ** Identifiers and update descriptors *)

Definition SpikeId := nat.
Definition ClusterId := Z.
Definition Group := Z.

(** The effect of one mutation: cluster ids removed, cluster ids added and
    the added ids that become selected. *)
Record UpdateDescriptor : Type := mkUp {
  deleted : list ClusterId;
  added : list ClusterId;
  selected : list ClusterId
}.

(** Python exceptions that the session can surface to its caller. *)
Inductive Exn : Type :=
| AttributeError (attr : string)
| InvalidOperation
| IOError
| IndexError
| TypeError.

(** ** Finite sets of cluster ids as sorted duplicate-free lists *)

Definition memZ (x : Z) (l : list Z) : bool := existsb (Z.eqb x) l.

Definition memN (x : nat) (l : list nat) : bool := existsb (Nat.eqb x) l.

Fixpoint insert_sorted (x : Z) (l : list Z) : list Z :=
  match l with
  | [] => [x]
  | y :: r =>
      if x <? y then x :: l
      else if x =? y then l
      else y :: insert_sorted x r
  end.

Definition sorted_set (l : list Z) : list Z := fold_right insert_sorted [] l.

(** Ids of [a] that do not occur in [b]. *)
Definition diff_ids (a b : list Z) : list Z :=
  filter (fun x => negb (memZ x b)) a.

(** ** Clustering *)

Module Clustering.

(** Modelled from the spec: the class [Clustering] of
    [phy/cluster/manual/clustering.py] is missing.  The state is the
    cluster assignment in spike order together with the monotonic id
    allocator of section 4.1. *)
Record t : Type := mk {
  spike_clusters : list ClusterId;
  next_id : ClusterId
}.

Definition max_id (sc : list ClusterId) : Z := fold_right Z.max (-1) sc.

(** Modelled from the spec: the constructor [Clustering(spike_clusters)]
    is missing; the allocator starts right above the ids of the loaded
    assignment. *)
Definition init (sc : list ClusterId) : t := mk sc (max_id sc + 1).

(** Modelled from the spec: the property [cluster_ids] is missing; it is
    the sorted set of the cluster ids in use. *)
Definition cluster_ids (c : t) : list ClusterId :=
  sorted_set (spike_clusters c).

Definition relabel_clusters (ids : list ClusterId) (new : ClusterId)
    (sc : list ClusterId) : list ClusterId :=
  map (fun x => if memZ x ids then new else x) sc.

(** Modelled from the spec: the method [Clustering.merge] is missing.
    It rejects fewer than two distinct ids and ids that are not in use;
    otherwise every spike of a merged cluster goes to one freshly
    allocated id.  A rejected call leaves the clustering as it was. *)
Definition merge (clusters : list ClusterId) (c : t)
    : (Exn + UpdateDescriptor) * t :=
  let ids := sorted_set clusters in
  if (length ids <? 2)%nat then (inl InvalidOperation, c)
  else if negb (forallb (fun x => memZ x (cluster_ids c)) ids)
  then (inl InvalidOperation, c)
  else
    let new := next_id c in
    (inr (mkUp ids [new] [new]),
     mk (relabel_clusters ids new (spike_clusters c)) (new + 1)).

Fixpoint relabel_spikes (spikes : list SpikeId) (new : ClusterId)
    (i : nat) (sc : list ClusterId) : list ClusterId :=
  match sc with
  | [] => []
  | x :: r =>
      (if memN i spikes then new else x)
        :: relabel_spikes spikes new (S i) r
  end.

(** Cluster ids currently holding the given spikes. *)
Definition donors (spikes : list SpikeId) (sc : list ClusterId)
    : list ClusterId :=
  sorted_set (map (fun i => nth i sc 0) spikes).

(** Modelled from the spec: the method [Clustering.split] is missing.
    It rejects an empty spike set and unknown spike ids; otherwise the
    given spikes are peeled off into one freshly allocated id, a donor
    that keeps some spikes keeps its id, and a donor that loses all its
    spikes is retired.  The descriptor reports the donors as removed and
    every resulting id as added and selected. *)
Definition split (spikes : list SpikeId) (c : t)
    : (Exn + UpdateDescriptor) * t :=
  match spikes with
  | [] => (inl InvalidOperation, c)
  | _ :: _ =>
      if negb (forallb (fun i => (i <? length (spike_clusters c))%nat) spikes)
      then (inl InvalidOperation, c)
      else
        let new := next_id c in
        let sc' := relabel_spikes spikes new 0 (spike_clusters c) in
        let ds := donors spikes (spike_clusters c) in
        let res := new :: filter (fun d => memZ d sc') ds in
        (inr (mkUp ds res res), mk sc' (new + 1))
  end.

End Clustering.

(** ** Cluster metadata *)

Module ClusterMetadata.

(** Modelled from the spec: the class [ClusterMetadata] of
    [phy/cluster/manual/cluster_info.py] is missing.  Only the group of
    each cluster matters here; it is kept as an association list whose
    first binding of a cluster wins. *)
Definition t : Type := list (ClusterId * Group).

Fixpoint group (cluster : ClusterId) (m : t) : option Group :=
  match m with
  | [] => None
  | (c, g) :: r => if c =? cluster then Some g else group cluster r
  end.

(** Modelled from the spec: the method [set_group(clusters, group)] is
    missing.  It moves the given clusters to the group and answers with a
    descriptor; no cluster id appears or disappears. *)
Definition set_group (clusters : list ClusterId) (g : Group) (m : t)
    : UpdateDescriptor * t :=
  (mkUp [] [] [], map (fun c => (c, g)) clusters ++ m).

End ClusterMetadata.

(** ** Targets of the history *)

(** The capability that [GlobalHistory] asks of a stateful target: its
    state can be captured as a snapshot and restored from one, and a
    snapshot tells the cluster ids it holds. *)
Class Capture (T S : Type) : Type := {
  capture : T -> S;
  restore : S -> T -> T;
  snapshot_ids : S -> list ClusterId
}.

(** A snapshot of a clustering is its cluster assignment.  Restoring puts
    the assignment back and leaves the id allocator where it is, so that a
    retired id is never issued again. *)
#[export] Instance Clustering_Capture
    : Capture Clustering.t (list ClusterId) := {
  capture c := Clustering.spike_clusters c;
  restore snap c := Clustering.mk snap (Clustering.next_id c);
  snapshot_ids snap := sorted_set snap
}.

(** ** GlobalHistory *)

Module GlobalHistory.
Section History.

Context {T S : Type} `{Capture T S}.

(** Modelled from the spec: the class [GlobalHistory] of
    [phy/cluster/manual/_history.py] is missing.  Section 4.2 describes a
    two-stack log of snapshots; both stacks have their top first. *)
Record t : Type := mk {
  undo_stack : list S;
  redo_stack : list S
}.

(** Modelled from the spec: the constructor [GlobalHistory()] is missing;
    a new history is empty. *)
Definition empty : t := mk [] [].

(** Modelled from the spec: [GlobalHistory.action(target)] is missing; it
    pushes the current state of the target and clears the redo stack. *)
Definition action (target : T) (h : t) : t :=
  mk (capture target :: undo_stack h) [].

(** Net difference between two snapshots. *)
Definition net_update (before after : S) : UpdateDescriptor :=
  let b := snapshot_ids before in
  let a := snapshot_ids after in
  mkUp (diff_ids b a) (diff_ids a b) (diff_ids a b).

(** Modelled from the spec: [GlobalHistory.undo()] is missing.  With at
    most one entry it answers [None], the nothing-to-undo marker;
    otherwise the top entry moves to the redo stack and the target is
    restored to the entry below. *)
Definition undo (h : t) (target : T)
    : option UpdateDescriptor * t * T :=
  match undo_stack h with
  | top :: below :: rest =>
      (Some (net_update top below),
       mk (below :: rest) (top :: redo_stack h),
       restore below target)
  | _ => (None, h, target)
  end.

(** Modelled from the spec: [GlobalHistory.redo()] is missing.  With an
    empty redo stack it answers [None]; otherwise the top redo entry
    becomes the top of the undo stack and the target is restored to it. *)
Definition redo (h : t) (target : T)
    : option UpdateDescriptor * t * T :=
  match redo_stack h with
  | [] => (None, h, target)
  | e :: r =>
      (Some (net_update (capture target) e),
       mk (e :: undo_stack h) r,
       restore e target)
  end.

End History.
Arguments t S : clear implicits.
End GlobalHistory.

(** ** Selector *)

Module Selector.

(** Modelled from the spec: the class [Selector] of
    [phy/cluster/manual/selector.py] is missing.  It holds the cluster
    assignment it was built from, the cap and the selected clusters. *)
Record t : Type := mk {
  spike_clusters : list ClusterId;
  n_spikes_max : nat;
  selected_clusters : list ClusterId
}.

Definition init (sc : list ClusterId) (n : nat) : t := mk sc n [].

Definition set_selected_clusters (clusters : list ClusterId) (s : t) : t :=
  mk (spike_clusters s) (n_spikes_max s) clusters.

(** Spikes of the selected clusters, in spike order. *)
Fixpoint spikes_in (clusters : list ClusterId) (i : nat)
    (sc : list ClusterId) : list SpikeId :=
  match sc with
  | [] => []
  | c :: r =>
      if memZ c clusters then i :: spikes_in clusters (S i) r
      else spikes_in clusters (S i) r
  end.

(** Every [k]-th element, the first one included; [j] counts down to the
    next element kept. *)
Fixpoint stride (k j : nat) (l : list SpikeId) : list SpikeId :=
  match l with
  | [] => []
  | x :: r =>
      match j with
      | O => x :: stride k (Nat.pred k) r
      | S j' => stride k j' r
      end
  end.

(** Uniform-stride subsampling to at most [n] elements. *)
Definition subsample (n : nat) (l : list SpikeId) : list SpikeId :=
  if (length l <=? n)%nat then l
  else match n with
       | O => []
       | S _ => stride ((length l + n - 1) / n)%nat 0 l
       end.

(** Modelled from the spec: the property [selected_spikes] is missing. *)
Definition selected_spikes (s : t) : list SpikeId :=
  subsample (n_spikes_max s)
    (spikes_in (selected_clusters s) 0 (spike_clusters s)).

End Selector.

(** ** The data model and the waveform view *)

Module Model.

(** What the session reads from the model object handed to [open]; the
    waveforms and the masks hold one datum per spike. *)
Record t : Type := mk {
  spike_clusters : list ClusterId;
  cluster_metadata : ClusterMetadata.t;
  waveforms : list Z;
  masks : list Z;
  probe_positions : list (Z * Z)
}.

End Model.

Module WaveformView.

(** The fields of a [WaveformView] and of its [visual] that the callbacks
    of [show_waveforms] write. *)
Record t : Type := mk {
  always_on_top : bool;
  shown : bool;
  spike_clusters : option (list ClusterId);
  cluster_metadata : option ClusterMetadata.t;
  channel_positions : option (list (Z * Z));
  waveforms : option (list Z);
  masks : option (list Z);
  spike_ids : option (list SpikeId);
  n_updates : nat
}.

Definition init (aot : bool) : t :=
  mk aot false None None None None None None 0%nat.

Definition show (v : t) : t :=
  mk (always_on_top v) true (spike_clusters v) (cluster_metadata v)
     (channel_positions v) (waveforms v) (masks v) (spike_ids v)
     (n_updates v).

(** The three assignments of the callback [on_open], then [view.update()]. *)
Definition on_open (sc : list ClusterId) (md : ClusterMetadata.t)
    (pos : list (Z * Z)) (v : t) : t :=
  mk (always_on_top v) (shown v) (Some sc) (Some md) (Some pos)
     (waveforms v) (masks v) (spike_ids v) (S (n_updates v)).

(** The statements of the callback [on_select], one by one:
    [view.visual.waveforms = ...], [view.visual.masks = ...],
    [view.visual.spike_ids = ...] and [view.update()]. *)
Definition set_waveforms (w : list Z) (v : t) : t :=
  mk (always_on_top v) (shown v) (spike_clusters v) (cluster_metadata v)
     (channel_positions v) (Some w) (masks v) (spike_ids v) (n_updates v).

Definition set_masks (k : list Z) (v : t) : t :=
  mk (always_on_top v) (shown v) (spike_clusters v) (cluster_metadata v)
     (channel_positions v) (waveforms v) (Some k) (spike_ids v)
     (n_updates v).

Definition set_spike_ids (spikes : list SpikeId) (v : t) : t :=
  mk (always_on_top v) (shown v) (spike_clusters v) (cluster_metadata v)
     (channel_positions v) (waveforms v) (masks v) (Some spikes)
     (n_updates v).

Definition update (v : t) : t :=
  mk (always_on_top v) (shown v) (spike_clusters v) (cluster_metadata v)
     (channel_positions v) (waveforms v) (masks v) (spike_ids v)
     (S (n_updates v)).

(** The view after the whole callback [on_select] has run: the three
    assignments, then [view.update()]. *)
Definition on_select (w k : list Z) (spikes : list SpikeId) (v : t) : t :=
  mk (always_on_top v) (shown v) (spike_clusters v) (cluster_metadata v)
     (channel_positions v) (Some w) (Some k) (Some spikes)
     (S (n_updates v)).

End WaveformView.

(** ** Events, callbacks and the observation trace *)

(** The callbacks that the source connects: the two methods of the session
    and the three closures of each waveform view, named by the view. *)
Inductive Callback : Type :=
| Session_on_open
| Session_on_cluster
| View_on_open (v : nat)
| View_on_cluster (v : nat)
| View_on_select (v : nat).

(** An emitted event with its keyword arguments.  [up] is [None] for the
    nothing-to-undo marker; [add_to_stack] is [None] when the keyword is
    not passed, and the callback's default applies. *)
Inductive Event : Type :=
| Open_event
| Select_event
| Cluster_event (up : option UpdateDescriptor) (add_to_stack : option bool).

(** What an outside observer can see of a run: the events emitted, the
    callbacks invoked and the calls of [GlobalHistory.action]. *)
Inductive TraceItem : Type :=
| Emitted (e : Event)
| Called (cb : Callback) (e : Event)
| Recorded (snap : list ClusterId).

Definition Callback_eqb (a b : Callback) : bool :=
  match a, b with
  | Session_on_open, Session_on_open => true
  | Session_on_cluster, Session_on_cluster => true
  | View_on_open v, View_on_open w => Nat.eqb v w
  | View_on_cluster v, View_on_cluster w => Nat.eqb v w
  | View_on_select v, View_on_select w => Nat.eqb v w
  | _, _ => false
  end.

(** A callback named [on_<event>] is registered for that event. *)
Definition handles (cb : Callback) (e : Event) : bool :=
  match cb, e with
  | Session_on_open, Open_event => true
  | View_on_open _, Open_event => true
  | Session_on_cluster, Cluster_event _ _ => true
  | View_on_cluster _, Cluster_event _ _ => true
  | View_on_select _, Select_event => true
  | _, _ => false
  end.

(** [self.cluster_metadata] is bound by [on_open] to the very object that
    the model holds, and [set_group] changes that object in place: the
    attribute is a reference into the model, not a copy. *)
Inductive MetadataRef : Type := metadata_of_model.

(** ** The session *)

Module Session.

(** The attributes of a [Session] object.  The four attributes that
    [on_open] binds do not exist before; [None] stands for an attribute
    that is not bound.  [_callbacks] is the registry of the [EventEmitter]
    base class, [views] holds the view objects that the connected closures
    refer to, and [trace] is the observation trace. *)
Record t : Type := mk {
  model : option Model.t;
  filename : option string;
  _backend : option string;
  _actions : list (string * string);
  _callbacks : list Callback;
  _global_history : option (GlobalHistory.t (list ClusterId));
  clustering : option Clustering.t;
  cluster_metadata : option MetadataRef;
  selector : option Selector.t;
  views : list WaveformView.t;
  trace : list TraceItem
}.

Definition with_model (x : option Model.t) (s : t) : t :=
  mk x (filename s) (_backend s) (_actions s) (_callbacks s)
     (_global_history s) (clustering s) (cluster_metadata s) (selector s)
     (views s) (trace s).

Definition with_filename (x : option string) (s : t) : t :=
  mk (model s) x (_backend s) (_actions s) (_callbacks s)
     (_global_history s) (clustering s) (cluster_metadata s) (selector s)
     (views s) (trace s).

Definition with_actions (x : list (string * string)) (s : t) : t :=
  mk (model s) (filename s) (_backend s) x (_callbacks s)
     (_global_history s) (clustering s) (cluster_metadata s) (selector s)
     (views s) (trace s).

Definition with_callbacks (x : list Callback) (s : t) : t :=
  mk (model s) (filename s) (_backend s) (_actions s) x
     (_global_history s) (clustering s) (cluster_metadata s) (selector s)
     (views s) (trace s).

Definition with_global_history (x : GlobalHistory.t (list ClusterId))
    (s : t) : t :=
  mk (model s) (filename s) (_backend s) (_actions s) (_callbacks s)
     (Some x) (clustering s) (cluster_metadata s) (selector s)
     (views s) (trace s).

Definition with_clustering (x : Clustering.t) (s : t) : t :=
  mk (model s) (filename s) (_backend s) (_actions s) (_callbacks s)
     (_global_history s) (Some x) (cluster_metadata s) (selector s)
     (views s) (trace s).

Definition with_cluster_metadata (x : MetadataRef) (s : t) : t :=
  mk (model s) (filename s) (_backend s) (_actions s) (_callbacks s)
     (_global_history s) (clustering s) (Some x) (selector s)
     (views s) (trace s).

Definition with_selector (x : Selector.t) (s : t) : t :=
  mk (model s) (filename s) (_backend s) (_actions s) (_callbacks s)
     (_global_history s) (clustering s) (cluster_metadata s) (Some x)
     (views s) (trace s).

Definition with_views (x : list WaveformView.t) (s : t) : t :=
  mk (model s) (filename s) (_backend s) (_actions s) (_callbacks s)
     (_global_history s) (clustering s) (cluster_metadata s) (selector s)
     x (trace s).

Definition with_trace (x : list TraceItem) (s : t) : t :=
  mk (model s) (filename s) (_backend s) (_actions s) (_callbacks s)
     (_global_history s) (clustering s) (cluster_metadata s) (selector s)
     (views s) x.

(** *** Computations on a session that may raise

    A method runs on the session and ends with a value or with an
    exception; in both cases the session is left in the state reached. *)
Definition M (A : Type) : Type := t -> (Exn + A) * t.

Definition ret {A : Type} (a : A) : M A := fun s => (inr a, s).

Definition raise {A : Type} (e : Exn) : M A := fun s => (inl e, s).

Definition bind {A B : Type} (m : M A) (k : A -> M B) : M B :=
  fun s =>
    match m s with
    | (inl e, s') => (inl e, s')
    | (inr a, s') => k a s'
    end.

Notation "x <- m ;; k" := (bind m (fun x => k))
  (at level 61, m at next level, right associativity).
Notation "m ;;; k" := (bind m (fun _ => k))
  (at level 61, right associativity).

Definition gets {A : Type} (f : t -> A) : M A := fun s => (inr (f s), s).

Definition modify (f : t -> t) : M unit := fun s => (inr tt, f s).

(** Reading an attribute that is not bound raises [AttributeError]. *)
Definition getattr {A : Type} (name : string) (f : t -> option A) : M A :=
  fun s =>
    match f s with
    | Some a => (inr a, s)
    | None => (inl (AttributeError name), s)
    end.

Definition log (i : TraceItem) : M unit :=
  modify (fun s => with_trace (trace s ++ [i]) s).

(** The metadata object behind [self.cluster_metadata]. *)
Definition metadata (s : t) : option ClusterMetadata.t :=
  match cluster_metadata s, model s with
  | Some metadata_of_model, Some m => Some (Model.cluster_metadata m)
  | _, _ => None
  end.

Definition set_metadata (md : ClusterMetadata.t) : M unit :=
  modify (fun s =>
    match model s with
    | Some m =>
        with_model
          (Some (Model.mk (Model.spike_clusters m) md (Model.waveforms m)
                   (Model.masks m) (Model.probe_positions m))) s
    | None => s
    end).

(** *** BaseSession *)

(** [BaseSession.action(func, title=...)] called with a method: the action
    is appended to [_actions].  The [setattr] of the method under its own
    name changes nothing that is observed here. *)
Definition action (func title : string) (s : t) : t :=
  with_actions (_actions s ++ [(func, title)]) s.

(** Modelled from the spec: [EventEmitter.connect] of [phy/utils/event.py]
    is missing; observers are kept in registration order. *)
Definition connect (cb : Callback) (s : t) : t :=
  with_callbacks (_callbacks s ++ [cb]) s.

(** Modelled from the spec: [EventEmitter.unconnect] of
    [phy/utils/event.py] is missing; the given callbacks are removed. *)
Definition unconnect (cbs : list Callback) (s : t) : t :=
  with_callbacks
    (filter (fun cb => negb (existsb (Callback_eqb cb) cbs)) (_callbacks s))
    s.

(** [Session.__init__]. *)
Definition __init__ (backend : option string) : t :=
  let s := mk None None backend [] [] None None None None [] [] in
  let s := action "open" "Open" s in
  let s := action "select" "Select clusters" s in
  let s := action "merge" "Merge" s in
  let s := action "split" "Split" s in
  let s := action "move" "Move clusters to a group" s in
  let s := action "undo" "Undo" s in
  let s := action "redo" "Redo" s in
  let s := action "show_waveforms" "Show waveforms" s in
  let s := action "show_clusters" "Show clusters" s in
  let s := connect Session_on_open s in
  connect Session_on_cluster s.

(** *** Event callbacks *)

(** [Session.on_open]: update the session after new data has been
    loaded.  The clustering and the selector are built from the same
    assignment of the model; each is given its contents here, and what
    one of them later does to the array they were built from is not
    seen by the other. *)
Definition on_open : M unit :=
  modify (with_global_history GlobalHistory.empty) ;;;
  m <- getattr "model" model ;;
  let spike_clusters := Model.spike_clusters m in
  modify (with_clustering (Clustering.init spike_clusters)) ;;;
  modify (with_cluster_metadata metadata_of_model) ;;;
  modify (with_selector (Selector.init spike_clusters 100)).

(** [Session.on_cluster(up=None, add_to_stack=True)]. *)
Definition on_cluster (up : option UpdateDescriptor) (add_to_stack : bool)
    : M unit :=
  if add_to_stack then
    h <- getattr "_global_history" _global_history ;;
    c <- getattr "clustering" clustering ;;
    modify (with_global_history (GlobalHistory.action c h)) ;;;
    log (Recorded (capture c))
  else ret tt.

(** The view objects are held in a list; [update_nth v f] changes the
    view numbered [v] and no other. *)
Fixpoint update_nth (v : nat) (f : WaveformView.t -> WaveformView.t)
    (vs : list WaveformView.t) {struct vs} : list WaveformView.t :=
  match vs, v with
  | [], _ => []
  | w :: r, O => f w :: r
  | w :: r, S v' => w :: update_nth v' f r
  end.

Definition update_view (v : nat) (f : WaveformView.t -> WaveformView.t)
    : M unit :=
  modify (fun s => with_views (update_nth v f (views s)) s).

(** Indexing an array with a list of indices; an index out of range
    raises. *)
Fixpoint take_rows (a : list Z) (idx : list nat) : option (list Z) :=
  match idx with
  | [] => Some []
  | i :: r =>
      match nth_error a i, take_rows a r with
      | Some x, Some xs => Some (x :: xs)
      | _, _ => None
      end
  end.

Definition index (a : list Z) (idx : list nat) : M (list Z) :=
  match take_rows a idx with
  | Some r => ret r
  | None => raise IndexError
  end.

(** The closure [on_open] of [show_waveforms] for the view [v].  The
    view is given the contents that the assignment and the metadata have
    when the closure runs; what a view shows is read right after. *)
Definition view_on_open (v : nat) : M unit :=
  mo <- gets model ;;
  match mo with
  | None => ret tt
  | Some m =>
      c <- getattr "clustering" clustering ;;
      md <- getattr "cluster_metadata" metadata ;;
      update_view v
        (WaveformView.on_open (Clustering.spike_clusters c) md
           (Model.probe_positions m))
  end.

(** The closure [on_cluster] of [show_waveforms]: [pass]. *)
Definition view_on_cluster (v : nat) (up : option UpdateDescriptor)
    : M unit := ret tt.

(** The closure [on_select] of [show_waveforms] for the view [v].  Each
    assignment is done before the right-hand side of the next one is
    read: the waveforms are in the view by the time the masks are
    indexed. *)
Definition view_on_select (v : nat) : M unit :=
  sel <- getattr "selector" selector ;;
  let spikes := Selector.selected_spikes sel in
  if (length spikes =? 0)%nat then ret tt
  else
    m <- getattr "model" model ;;
    w <- index (Model.waveforms m) spikes ;;
    update_view v (WaveformView.set_waveforms w) ;;;
    m <- getattr "model" model ;;
    k <- index (Model.masks m) spikes ;;
    update_view v (WaveformView.set_masks k) ;;;
    update_view v (WaveformView.set_spike_ids spikes) ;;;
    update_view v WaveformView.update.

Definition run_callback (cb : Callback) (e : Event) : M unit :=
  match cb, e with
  | Session_on_open, Open_event => on_open
  | Session_on_cluster, Cluster_event up None => on_cluster up true
  | Session_on_cluster, Cluster_event up (Some b) => on_cluster up b
  | View_on_open v, Open_event => view_on_open v
  | View_on_cluster v, Cluster_event up _ => view_on_cluster v up
  | View_on_select v, Select_event => view_on_select v
  | _, _ => ret tt
  end.

Fixpoint deliver (cbs : list Callback) (e : Event) : M unit :=
  match cbs with
  | [] => ret tt
  | cb :: r =>
      (if handles cb e then log (Called cb e) ;;; run_callback cb e
       else ret tt) ;;;
      deliver r e
  end.

(** Modelled from the spec: [EventEmitter.emit] of [phy/utils/event.py] is
    missing.  The event is delivered synchronously to the observers
    registered for it, in registration order; an observer that raises ends
    the delivery. *)
Definition emit (e : Event) : M unit :=
  log (Emitted e) ;;;
  cbs <- gets _callbacks ;;
  deliver cbs e.

(** *** Public actions *)

Section Actions.

(** The loader [KwikModel(filename)] of [phy/io/kwik_model.py], an
    external collaborator; [None] when it raises. *)
Variable KwikModel : option string -> option Model.t.

Definition open (filename : option string) (model : option Model.t)
    : M unit :=
  m <- match model with
       | Some m => ret m
       | None =>
           match KwikModel filename with
           | Some m => ret m
           | None => raise IOError
           end
       end ;;
  modify (with_model (Some m)) ;;;
  modify (with_filename filename) ;;;
  emit Open_event.

Definition select (clusters : list ClusterId) : M unit :=
  sel <- getattr "selector" selector ;;
  modify (with_selector (Selector.set_selected_clusters clusters sel)) ;;;
  emit Select_event.

(** A method of the clustering that mutates it and may raise. *)
Definition on_clustering
    (f : Clustering.t -> (Exn + UpdateDescriptor) * Clustering.t)
    : M UpdateDescriptor :=
  c <- getattr "clustering" clustering ;;
  let (r, c') := f c in
  modify (with_clustering c') ;;;
  match r with
  | inl e => raise e
  | inr up => ret up
  end.

Definition merge (clusters : list ClusterId) : M unit :=
  up <- on_clustering (Clustering.merge clusters) ;;
  emit (Cluster_event (Some up) None).

Definition split (spikes : list SpikeId) : M unit :=
  up <- on_clustering (Clustering.split spikes) ;;
  emit (Cluster_event (Some up) None).

Definition move (clusters : list ClusterId) (group : Group) : M unit :=
  md <- getattr "cluster_metadata" metadata ;;
  let (up, md') := ClusterMetadata.set_group clusters group md in
  set_metadata md' ;;;
  emit (Cluster_event (Some up) None).

(** A method of the history, [undo] or [redo], run on the clustering that
    its entries were recorded from.  Entries come from
    [action(self.clustering)] alone, so a history without a clustering has
    nothing to replay. *)
Definition on_history
    (f : GlobalHistory.t (list ClusterId) -> Clustering.t ->
         option UpdateDescriptor * GlobalHistory.t (list ClusterId)
         * Clustering.t)
    : M (option UpdateDescriptor) :=
  h <- getattr "_global_history" _global_history ;;
  co <- gets clustering ;;
  match co with
  | None => ret None
  | Some c =>
      let '(up, h', c') := f h c in
      modify (with_global_history h') ;;;
      modify (with_clustering c') ;;;
      ret up
  end.

Definition undo : M unit :=
  up <- on_history GlobalHistory.undo ;;
  emit (Cluster_event up (Some false)).

Definition redo : M unit :=
  up <- on_history GlobalHistory.redo ;;
  emit (Cluster_event up (Some false)).

(** *** Views *)

Definition backend_is_qt (b : option string) : bool :=
  match b with
  | None => true
  | Some n => String.eqb n "pyqt4"
  end.

(** [Session.show_waveforms]; the answer is the new view. *)
Definition show_waveforms : M nat :=
  b <- gets _backend ;;
  v <- gets (fun s => length (views s)) ;;
  modify (fun s =>
    with_views (views s ++ [WaveformView.init (backend_is_qt b)]) s) ;;;
  modify (connect (View_on_open v)) ;;;
  modify (connect (View_on_cluster v)) ;;;
  modify (connect (View_on_select v)) ;;;
  update_view v WaveformView.show ;;;
  view_on_open v ;;;
  view_on_select v ;;;
  ret v.

(** The closure [on_close] of [show_waveforms], run when the view [v] is
    closed. *)
Definition close_view (v : nat) : M unit :=
  modify (unconnect [View_on_open v; View_on_cluster v; View_on_select v]).

(** *** Sessions that a caller can reach *)

Inductive Op : Type :=
| Open (filename : option string) (model : option Model.t)
| Select (clusters : list ClusterId)
| Merge (clusters : list ClusterId)
| Split (spikes : list SpikeId)
| Move (clusters : list ClusterId) (group : Group)
| Undo
| Redo
| Show_waveforms
| Close_view (v : nat).

Definition run (op : Op) : M unit :=
  match op with
  | Open f m => open f m
  | Select cl => select cl
  | Merge cl => merge cl
  | Split sp => split sp
  | Move cl g => move cl g
  | Undo => undo
  | Redo => redo
  | Show_waveforms => show_waveforms ;;; ret tt
  | Close_view v => close_view v
  end.

(** The session after a call, whether it returned or raised. *)
Definition after (op : Op) (s : t) : t := snd (run op s).

Inductive reachable : t -> Prop :=
| reachable_init (backend : option string) : reachable (__init__ backend)
| reachable_step (op : Op) (s : t) :
    reachable s -> reachable (after op s).

End Actions.

End Session.

(** ** Notions used to state the properties *)

Module Notions.
Import Session.

Definition is_view_cb (cb : Callback) : bool :=
  match cb with
  | Session_on_open | Session_on_cluster => false
  | _ => true
  end.

(** Everything of a session but the contents of its views and its
    trace. *)
Definition core (s : t) :=
  (model s, filename s, _backend s, _actions s, _callbacks s,
   _global_history s, clustering s, cluster_metadata s, selector s,
   length (views s)).

(** The view that a callback belongs to. *)
Definition view_of (cb : Callback) : option nat :=
  match cb with
  | View_on_open v | View_on_cluster v | View_on_select v => Some v
  | _ => None
  end.

(** What the [on_open] callbacks among [cbs] do to the views, one after
    the other. *)
Fixpoint refresh (f : WaveformView.t -> WaveformView.t)
    (cbs : list Callback) (vs : list WaveformView.t)
    : list WaveformView.t :=
  match cbs with
  | [] => vs
  | View_on_open v :: r => refresh f r (update_nth v f vs)
  | _ :: r => refresh f r vs
  end.

(** The invocations of the callbacks among [cbs] that are registered for
    the event [e], in registration order. *)
Definition calls (cbs : list Callback) (e : Event) : list TraceItem :=
  map (fun cb => Called cb e) (filter (fun cb => handles cb e) cbs).

(** Number of calls of [GlobalHistory.action] in a trace. *)
Fixpoint count_recorded (tr : list TraceItem) : nat :=
  match tr with
  | [] => O
  | Recorded _ :: r => S (count_recorded r)
  | _ :: r => count_recorded r
  end.

Definition bounded (n : Z) (l : list ClusterId) : Prop :=
  Forall (fun x => x < n) l.

(** What holds of the history and the clustering of an opened session:
    the allocator is above every id in use or remembered, and the top of
    the undo stack, when there is one, is the current assignment. *)
Record opened_inv (h : GlobalHistory.t (list ClusterId))
    (c : Clustering.t) : Prop := mk_opened_inv {
  ids_bounded : bounded (Clustering.next_id c) (Clustering.spike_clusters c);
  undo_bounded :
    Forall (bounded (Clustering.next_id c)) (GlobalHistory.undo_stack h);
  redo_bounded :
    Forall (bounded (Clustering.next_id c)) (GlobalHistory.redo_stack h);
  top_current :
    forall top rest,
      GlobalHistory.undo_stack h = top :: rest ->
      top = Clustering.spike_clusters c
}.

(** The session's own callbacks come first, each once; the attributes
    bound by [on_open] are there together or not at all. *)
Definition inv (s : t) : Prop :=
  (exists vcbs,
     _callbacks s = Session_on_open :: Session_on_cluster :: vcbs
     /\ forallb is_view_cb vcbs = true
     /\ forall cb v, In cb vcbs -> view_of cb = Some v ->
                     (v < length (views s))%nat)
  /\ match model s, _global_history s, clustering s,
           cluster_metadata s, selector s with
     | Some _, Some h, Some c, Some _, Some _ => opened_inv h c
     | None, None, None, None, None => True
     | _, _, _, _, _ => False
     end.

Definition is_mutation (op : Op) : bool :=
  match op with
  | Merge _ | Split _ | Move _ _ => true
  | _ => false
  end.

(** The actions that need an opened session. *)
Definition needs_open (op : Op) : bool :=
  match op with
  | Select _ | Merge _ | Split _ | Move _ _ | Undo | Redo => true
  | _ => false
  end.

(** Sessions on which no call of [open] has returned. *)
Inductive never_opened (KwikModel : option string -> option Model.t)
    : t -> Prop :=
| never_opened_init (backend : option string) :
    never_opened KwikModel (__init__ backend)
| never_opened_step (op : Op) (s : t) :
    never_opened KwikModel s ->
    (forall f m, op = Open f m -> fst (run KwikModel op s) <> inr tt) ->
    never_opened KwikModel (after KwikModel op s).

(** One observer of [deliver]. *)
Definition notify (cb : Callback) (e : Event) : M unit :=
  if handles cb e then log (Called cb e) ;;; run_callback cb e else ret tt.

(** The session right after [Session.on_open] has run on the model [m]. *)
Definition on_opened (m : Model.t) (s : t) : t :=
  with_selector (Selector.init (Model.spike_clusters m) 100)
    (with_cluster_metadata metadata_of_model
       (with_clustering (Clustering.init (Model.spike_clusters m))
          (with_global_history GlobalHistory.empty s))).

(** The trace of a [cluster] event that is recorded: the session's
    [on_cluster] is called first and records, then the views are called. *)
Definition recorded_trace (vcbs : list Callback) (up : UpdateDescriptor)
    (snap : list ClusterId) : list TraceItem :=
  Emitted (Cluster_event (Some up) None)
    :: Called Session_on_cluster (Cluster_event (Some up) None)
    :: Recorded snap
    :: calls vcbs (Cluster_event (Some up) None).

(** The outcome of a merge that is accepted. *)
Definition merged (clusters : list ClusterId) (c : Clustering.t)
    : UpdateDescriptor * Clustering.t :=
  (mkUp (sorted_set clusters) [Clustering.next_id c] [Clustering.next_id c],
   Clustering.mk
     (Clustering.relabel_clusters (sorted_set clusters) (Clustering.next_id c)
        (Clustering.spike_clusters c))
     (Clustering.next_id c + 1)).

(** The outcome of a split that is accepted. *)
Definition splitted (spikes : list SpikeId) (c : Clustering.t)
    : UpdateDescriptor * Clustering.t :=
  let new := Clustering.next_id c in
  let sc' := Clustering.relabel_spikes spikes new 0
               (Clustering.spike_clusters c) in
  let ds := Clustering.donors spikes (Clustering.spike_clusters c) in
  let res := new :: filter (fun d => memZ d sc') ds in
  (mkUp ds res res, Clustering.mk sc' (new + 1)).

(** The two states of a session: the attributes bound by [on_open] are
    all there, or none is. *)
Definition is_opened (s : t) (m : Model.t)
    (h : GlobalHistory.t (list ClusterId)) (c : Clustering.t)
    (sel : Selector.t) : Prop :=
  model s = Some m /\ _global_history s = Some h /\ clustering s = Some c
  /\ cluster_metadata s = Some metadata_of_model /\ selector s = Some sel.

Definition is_unopened (s : t) : Prop :=
  model s = None /\ _global_history s = None /\ clustering s = None
  /\ cluster_metadata s = None /\ selector s = None.

(** The session after a call of [open] that got the model [m]: the
    attributes are bound anew and every [on_open] observer has run. *)
Definition opened_on (filename : option string) (m : Model.t)
    (vcbs : list Callback) (s : t) : t :=
  with_views
    (refresh
       (WaveformView.on_open (Model.spike_clusters m)
          (Model.cluster_metadata m) (Model.probe_positions m))
       vcbs (views s))
    (with_trace
       (trace s ++ Emitted Open_event :: calls (_callbacks s) Open_event)
       (on_opened m (with_filename filename (with_model (Some m) s)))).

(** The model that [open(filename, model)] works with. *)
Definition loads (KwikModel : option string -> option Model.t)
    (filename : option string) (model : option Model.t) (m : Model.t)
    : Prop :=
  model = Some m \/ (model = None /\ KwikModel filename = Some m).

(** A view that shows the dataset [m]: the fields written by its
    [on_open] closure hold the data of [m]. *)
Definition shows (m : Model.t) (w : WaveformView.t) : Prop :=
  WaveformView.spike_clusters w = Some (Model.spike_clusters m)
  /\ WaveformView.cluster_metadata w = Some (Model.cluster_metadata m)
  /\ WaveformView.channel_positions w = Some (Model.probe_positions m).

(** The attributes that [on_open] binds, the metadata read through its
    reference. *)
Definition substate (s : t) :=
  (_global_history s, clustering s, metadata s, selector s).

End Notions.

(** ** A small dataset *)

Module Example.
Import Session.

(** A loader that finds no file. *)
Definition no_file : option string -> option Model.t := fun _ => None.

(** Four spikes, two in cluster 1 and two in cluster 2, all in group 0. *)
Definition model0 : Model.t :=
  Model.mk [1; 1; 2; 2] [(1, 0); (2, 0)] [10; 11; 12; 13] [0; 0; 0; 0] [].

Definition fresh : t := __init__ None.

Definition opened : t := after no_file (Open None (Some model0)) fresh.

Definition merged : t := after no_file (Merge [1; 2]) opened.

Definition viewed : t := after no_file Show_waveforms merged.

(** A waveform view is asked for right after [open]. *)
Definition watched : t := after no_file Show_waveforms opened.

(** Cluster 1 is moved to group 7 right after [open]. *)
Definition moved : t := after no_file (Move [1] 7) opened.

End Example.

(** ** Opening an object that is not a model *)

Module Unreadable.
Import Session.

Section Unreadable.

(** [open] takes any object for a model.  The read
    [self.model.spike_clusters] of [on_open] raises on an object that has
    no such attribute; [inl] stands for that. *)
Variable read_spike_clusters : Model.t -> Exn + list ClusterId.

(** [Session.on_open], with the read of the assignment as one that may
    raise: the history is bound before it, the three other attributes
    after it. *)
Definition on_open : M unit :=
  modify (with_global_history GlobalHistory.empty) ;;;
  m <- getattr "model" model ;;
  match read_spike_clusters m with
  | inl e => raise e
  | inr spike_clusters =>
      modify (with_clustering (Clustering.init spike_clusters)) ;;;
      modify (with_cluster_metadata metadata_of_model) ;;;
      modify (with_selector (Selector.init spike_clusters 100))
  end.

Definition run_callback (cb : Callback) (e : Event) : M unit :=
  match cb, e with
  | Session_on_open, Open_event => on_open
  | _, _ => Session.run_callback cb e
  end.

Fixpoint deliver (cbs : list Callback) (e : Event) : M unit :=
  match cbs with
  | [] => ret tt
  | cb :: r =>
      (if handles cb e then log (Called cb e) ;;; run_callback cb e
       else ret tt) ;;;
      deliver r e
  end.

Definition emit (e : Event) : M unit :=
  log (Emitted e) ;;;
  cbs <- gets _callbacks ;;
  deliver cbs e.

Variable KwikModel : option string -> option Model.t.

(** [Session.open], with this [on_open] behind its [emit]. *)
Definition open (filename : option string) (model : option Model.t)
    : M unit :=
  m <- match model with
       | Some m => ret m
       | None =>
           match KwikModel filename with
           | Some m => ret m
           | None => raise IOError
           end
       end ;;
  modify (with_model (Some m)) ;;;
  modify (with_filename filename) ;;;
  emit Open_event.

End Unreadable.

(** A model whose assignment can be read. *)
Definition readable (m : Model.t) : Exn + list ClusterId :=
  inr (Model.spike_clusters m).

(** An object without the attribute [spike_clusters]. *)
Definition unreadable (m : Model.t) : Exn + list ClusterId :=
  inl (AttributeError "spike_clusters").

End Unreadable.

(** ** The action decorator of BaseSession *)

Module BaseSession.

(** A callable, known by its [__name__]; [ident] tells apart two
    functions of the same name. *)
Record Func : Type := mkFunc {
  func_name : string;
  ident : nat
}.

(** The first argument of [action]: nothing, a string or a function. *)
Inductive Arg : Type :=
| no_func
| a_string (s : string)
| a_func (f : Func).

(** What an attribute of the instance holds: the list of the registered
    actions, or a function. *)
Inductive Value : Type :=
| a_list (l : list (Func * option string))
| a_function (f : Func).

(** The attributes of the instance, by name, the latest binding first.
    [__init__] binds [_actions] there and [setattr] binds the registered
    functions there, under whatever name they have.  The methods of the
    class, [action] among them, are not in it: an attribute of the
    instance shadows the method of the same name. *)
Definition t : Type := list (string * Value).

(** [getattr] in the attributes of the instance. *)
Fixpoint lookup (name : string) (s : t) : option Value :=
  match s with
  | [] => None
  | (n, x) :: r => if String.eqb n name then Some x else lookup name r
  end.

(** A binding in the attributes of the instance. *)
Definition store (name : string) (x : Value) (s : t) : t :=
  (name, x) :: s.

(** [setattr(self, name, func)].  Three names are not bound in the
    attributes of the instance but handed to the object itself, which
    takes no function for them: [__class__] and [__dict__] raise
    [TypeError], [__weakref__] raises [AttributeError]. *)
Definition setattr (name : string) (x : Value) (s : t) : Exn + t :=
  if String.eqb name "__class__" || String.eqb name "__dict__"
  then inl TypeError
  else if String.eqb name "__weakref__"
  then inl (AttributeError "__weakref__")
  else inr (store name x s).

(** [BaseSession.__init__]. *)
Definition __init__ : t := store "_actions" (a_list []) [].

(** What [action] answers: [partial(self.action, title=...)], where
    [self.action] is the method ([None]) or the function that shadows it;
    or the function it has registered. *)
Inductive Answer : Type :=
| partial_action (shadow : option Func) (title : option string)
| registered (f : Func).

(** [partial(self.action, title=title)]. *)
Definition partial (title : option string) (s : t) : Exn + Answer :=
  match lookup "action" s with
  | None => inr (partial_action None title)
  | Some (a_function g) => inr (partial_action (Some g) title)
  | Some (a_list _) => inl TypeError
  end.

(** [BaseSession.action(func=None, title=None)].  The list is changed by
    [append]; then [setattr] binds the function under its name, which
    may be any name, that of the list included. *)
Definition action (func : Arg) (title : option string) (s : t)
    : (Exn + Answer) * t :=
  match func with
  | no_func => (partial title s, s)
  | a_string str => (partial (Some str) s, s)
  | a_func f =>
      match lookup "_actions" s with
      | None => (inl (AttributeError "_actions"), s)
      | Some (a_function _) => (inl (AttributeError "append"), s)
      | Some (a_list l) =>
          let s1 := store "_actions" (a_list (l ++ [(f, title)])) s in
          match setattr (func_name f) (a_function f) s1 with
          | inl e => (inl e, s1)
          | inr s2 => (inr (registered f), s2)
          end
      end
  end.

(** Using the answer of [action] as a decorator on the function [f]: a
    [partial] of the method calls [action(f, title=title)].  [None] when
    the call goes to a function that was registered, of which nothing is
    known. *)
Definition decorate (a : Answer) (f : Func) (s : t)
    : option ((Exn + Answer) * t) :=
  match a with
  | partial_action None title => Some (action (a_func f) title s)
  | partial_action (Some _) _ => None
  | registered _ => None
  end.

(** The ways of registering a function [f]: [action(f, title=t)] or
    [@action]; [@action(title=t)]; [@action('T')], where a [title=t]
    given besides the string is dropped. *)
Inductive Usage : Type :=
| direct (title : option string)
| with_keyword (title : option string)
| with_string (str : string) (title : option string).


(** A computation that raised, or else what comes next. *)
Definition and_then (r : (Exn + Answer) * t)
    (k : Answer -> t -> option ((Exn + Answer) * t))
    : option ((Exn + Answer) * t) :=
  match r with
  | (inl e, s) => Some (inl e, s)
  | (inr a, s) => k a s
  end.

(** A caller writes [session.action]: that is the method as long as no
    function was registered under the name [action]. *)
Definition use (u : Usage) (f : Func) (s : t)
    : option ((Exn + Answer) * t) :=
  match lookup "action" s with
  | Some _ => None
  | None =>
      match u with
      | direct t => Some (action (a_func f) t s)
      | with_keyword t =>
          and_then (action no_func t s) (fun a s1 => decorate a f s1)
      | with_string str t =>
          and_then (action (a_string str) t s)
            (fun a s1 => decorate a f s1)
      end
  end.





End BaseSession.

(** ** The cluster view and the entry point *)

Module Notebook.
Import Session.

Section Notebook.

(** A colour, and [ClusterMetadata.color(cluster)] of
    [phy/cluster/manual/cluster_info.py], which the session only calls. *)
Variable Color : Type.
Variable color : ClusterId -> ClusterMetadata.t -> Color.

(** Whether the code runs in IPython: outside, the constructor
    [ClusterView] of [phy/notebook/cluster_view.py] raises
    [RuntimeError]. *)
Variable in_ipython : bool.

Variable KwikModel : option string -> option Model.t.

(** [enable_notebook(backend=...)] of [phy/notebook/utils.py], an external
    collaborator that sets up the notebook interface: the exception it
    raises, or [None] when it returns.  What it sets up is outside the
    session. *)
Variable enable_notebook : option string -> option Exn.

(** The arguments that [show_clusters] builds the [ClusterView] with. *)
Record ClusterView : Type := mkClusterView {
  clusters : list ClusterId;
  colors : list Color
}.

(** The list comprehension of [show_clusters]: [self.cluster_metadata] is
    read once for each cluster. *)
Fixpoint cluster_colors (ids : list ClusterId) : M (list Color) :=
  match ids with
  | [] => ret []
  | cluster :: r =>
      md <- getattr "cluster_metadata" metadata ;;
      cs <- cluster_colors r ;;
      ret (color cluster md :: cs)
  end.

(** [Session.show_clusters]: the view, or [None] after the warning that
    the cluster view only works in IPython. *)
Definition show_clusters : M (option ClusterView) :=
  c <- getattr "clustering" clustering ;;
  cols <- cluster_colors (Clustering.cluster_ids c) ;;
  c' <- getattr "clustering" clustering ;;
  if in_ipython
  then ret (Some (mkClusterView (Clustering.cluster_ids c') cols))
  else ret None.

(** The handler that [show_clusters] puts on the value of the view. *)
Definition on_value_change (clusters : list ClusterId) : M unit :=
  select clusters.

(** [start_manual_clustering(filename, model, session, backend)]; the
    session it returns is the state reached. *)
Definition start_manual_clustering (filename : option string)
    (model : option Model.t) (session : option t)
    (backend : option string) : (Exn + unit) * t :=
  let s := match session with
           | None => __init__ backend
           | Some s => s
           end in
  match enable_notebook backend with
  | Some e => (inl e, s)
  | None => (open KwikModel filename model ;;; show_clusters ;;; ret tt) s
  end.

End Notebook.

End Notebook.

(** ** Notions about views *)

Module ViewNotions.
Import Session Notions.

(** No callback of the view [v] is registered. *)
Definition detached (v : nat) (s : t) : Prop :=
  forall cb, In cb (_callbacks s) -> view_of cb <> Some v.

(** The view [v] exists and no callback of it is registered. *)
Definition closed (v : nat) (s : t) : Prop :=
  detached v s /\ (v < length (views s))%nat.

(** No closure of the view [v] is called in the stretch [tr] of a
    trace. *)
Definition quiet (v : nat) (tr : list TraceItem) : Prop :=
  forall cb e, In (Called cb e) tr -> view_of cb <> Some v.

(** The view of the first [on_select] closure among [cbs], the one that a
    [select] event reaches first. *)
Fixpoint first_on_select (cbs : list Callback) : option nat :=
  match cbs with
  | [] => None
  | View_on_select v :: _ => Some v
  | _ :: r => first_on_select r
  end.

(** What the [on_select] callbacks among [cbs] do to the views, one after
    the other. *)
Fixpoint reselect (f : WaveformView.t -> WaveformView.t)
    (cbs : list Callback) (vs : list WaveformView.t)
    : list WaveformView.t :=
  match cbs with
  | [] => vs
  | View_on_select v :: r => reselect f r (update_nth v f vs)
  | _ :: r => reselect f r vs
  end.

(** A view that displays the spikes [spikes] with their rows of the
    waveforms and of the masks. *)
Definition displays (spikes : list SpikeId) (w k : list Z)
    (x : WaveformView.t) : Prop :=
  WaveformView.spike_ids x = Some spikes
  /\ WaveformView.waveforms x = Some w
  /\ WaveformView.masks x = Some k.

(** The session after a sequence of calls. *)
Definition after_all (KwikModel : option string -> option Model.t)
    (ops : list Op) (s : t) : t :=
  fold_left (fun s op => after KwikModel op s) ops s.

(** A computation that, run while the view [v] is closed, leaves it
    closed and calls none of its closures: the trace only grows, by a
    stretch in which no closure of [v] is called. *)
Definition keeps {A : Type} (v : nat) (x : M A) : Prop :=
  forall s,
    closed v s ->
    closed v (snd (x s))
    /\ exists tr, trace (snd (x s)) = trace s ++ tr /\ quiet v tr.

(** The three closures that [show_waveforms] connects for the view [v]. *)
Definition closures (v : nat) : list Callback :=
  [View_on_open v; View_on_cluster v; View_on_select v].

End ViewNotions.

(** ** A dataset whose masks are too short *)

Module ShortExample.
Import Session.

(** Four spikes with their waveforms, but a mask for the first one
    only. *)
Definition masked_model : Model.t :=
  Model.mk [1; 1; 2; 2] [(1, 0); (2, 0)] [10; 11; 12; 13] [0] [].

Definition masked_opened : t :=
  after Example.no_file (Open None (Some masked_model)) Example.fresh.

Definition masked_viewed : t :=
  after Example.no_file Show_waveforms masked_opened.

End ShortExample.

(** * Properties *)

(** ** Sets of ids *)

Section SetFacts.

Lemma memZ_In (x : Z) (l : list Z) : memZ x l = true <-> In x l.
Proof.
  unfold memZ. rewrite existsb_exists. split.
  - intros [y [Hy Heq]]. apply Z.eqb_eq in Heq. now subst.
  - intros Hin. exists x. split; [assumption | apply Z.eqb_refl].
Qed.

Lemma memZ_not_In (x : Z) (l : list Z) : memZ x l = false <-> ~ In x l.
Proof.
  rewrite <- memZ_In. destruct (memZ x l); split; congruence.
Qed.

Lemma memN_In (x : nat) (l : list nat) : memN x l = true <-> In x l.
Proof.
  unfold memN. rewrite existsb_exists. split.
  - intros [y [Hy Heq]]. apply Nat.eqb_eq in Heq. now subst.
  - intros Hin. exists x. split; [assumption | apply Nat.eqb_refl].
Qed.

Lemma insert_sorted_In (x y : Z) (l : list Z) :
  In y (insert_sorted x l) <-> y = x \/ In y l.
Proof.
  induction l as [|z r IH]; simpl.
  - intuition.
  - destruct (x <? z) eqn:Hlt; simpl.
    + intuition.
    + destruct (x =? z) eqn:Heq; simpl.
      * apply Z.eqb_eq in Heq. subst z. intuition.
      * rewrite IH. intuition.
Qed.

Lemma sorted_set_In (y : Z) (l : list Z) : In y (sorted_set l) <-> In y l.
Proof.
  induction l as [|x r IH]; simpl.
  - tauto.
  - rewrite insert_sorted_In, IH. intuition.
Qed.

Lemma insert_sorted_sorted (x : Z) (l : list Z) :
  StronglySorted Z.lt l -> StronglySorted Z.lt (insert_sorted x l).
Proof.
  induction 1 as [|z r Hs IH Hall]; simpl.
  - repeat constructor.
  - destruct (x <? z) eqn:Hlt.
    + apply Z.ltb_lt in Hlt. constructor.
      * now constructor.
      * constructor; [assumption|].
        eapply Forall_impl; [|exact Hall]. intros a Ha. simpl in Ha. lia.
    + destruct (x =? z) eqn:Heq.
      * now constructor.
      * apply Z.ltb_ge in Hlt. apply Z.eqb_neq in Heq.
        constructor; [assumption|].
        apply Forall_forall. intros a Ha.
        apply insert_sorted_In in Ha. destruct Ha as [->|Ha].
        -- lia.
        -- rewrite Forall_forall in Hall. now apply Hall.
Qed.

Lemma sorted_set_sorted (l : list Z) : StronglySorted Z.lt (sorted_set l).
Proof.
  induction l as [|x r IH]; simpl.
  - constructor.
  - now apply insert_sorted_sorted.
Qed.

Lemma sorted_NoDup (l : list Z) : StronglySorted Z.lt l -> NoDup l.
Proof.
  induction 1 as [|z r Hs IH Hall]; constructor; [|assumption].
  intros Hin. rewrite Forall_forall in Hall.
  specialize (Hall z Hin). simpl in Hall. lia.
Qed.

(** A duplicate-free list has two members or more exactly when two of its
    members differ. *)
Lemma two_distinct_length (l : list Z) :
  NoDup l ->
  (2 <= length l)%nat <-> exists a b, a <> b /\ In a l /\ In b l.
Proof.
  intros Hnd. split.
  - destruct l as [|a [|b r]]; simpl; try lia. intros _.
    exists a, b. split; [|simpl; tauto].
    inversion Hnd as [|? ? Hnotin _]; subst.
    intros ->. apply Hnotin. now left.
  - intros [a [b [Hne [Ha Hb]]]].
    destruct l as [|x [|y r]]; simpl in *; try lia; intuition congruence.
Qed.

Lemma distinct_ids_length (clusters : list Z) :
  (2 <= length (sorted_set clusters))%nat <->
  exists a b, a <> b /\ In a clusters /\ In b clusters.
Proof.
  rewrite two_distinct_length by apply sorted_NoDup, sorted_set_sorted.
  split; intros [a [b [Hne [Ha Hb]]]]; exists a, b.
  - rewrite sorted_set_In in Ha, Hb. tauto.
  - rewrite !sorted_set_In. tauto.
Qed.

Lemma diff_ids_In (x : Z) (a b : list Z) :
  In x (diff_ids a b) <-> In x a /\ ~ In x b.
Proof.
  unfold diff_ids. rewrite filter_In, negb_true_iff, memZ_not_In. tauto.
Qed.

End SetFacts.

(** ** Stepping through the session's computations *)

Module Steps.
Import Session Notions.

Lemma with_trace_same (s : t) : with_trace (trace s) s = s.
Proof. now destruct s. Qed.

Lemma with_trace_twice (x y : list TraceItem) (s : t) :
  with_trace x (with_trace y s) = with_trace x s.
Proof. reflexivity. Qed.

Lemma with_clustering_same (s : t) (c : Clustering.t) :
  clustering s = Some c -> with_clustering c s = s.
Proof. destruct s; simpl; now intros ->. Qed.

Lemma calls_cons (cb : Callback) (cbs : list Callback) (e : Event) :
  calls (cb :: cbs) e
  = (if handles cb e then [Called cb e] else []) ++ calls cbs e.
Proof. unfold calls. simpl. now destruct (handles cb e). Qed.

Lemma count_recorded_app (a b : list TraceItem) :
  count_recorded (a ++ b) = (count_recorded a + count_recorded b)%nat.
Proof.
  induction a as [|i r IH]; simpl; [reflexivity|].
  destruct i; simpl; now rewrite IH.
Qed.

Lemma count_recorded_calls (cbs : list Callback) (e : Event) :
  count_recorded (calls cbs e) = O.
Proof.
  unfold calls. induction cbs as [|cb r IH]; simpl; [reflexivity|].
  now destruct (handles cb e).
Qed.

Lemma deliver_cons (cb : Callback) (r : list Callback) (e : Event) (s : t) :
  deliver (cb :: r) e s
  = match notify cb e s with
    | (inl x, s') => (inl x, s')
    | (inr _, s') => deliver r e s'
    end.
Proof. reflexivity. Qed.

Lemma update_nth_length (v : nat) (f : WaveformView.t -> WaveformView.t)
    (vs : list WaveformView.t) :
  length (update_nth v f vs) = length vs.
Proof.
  revert v. induction vs as [|w r IH]; intros v; [reflexivity|].
  destruct v as [|v]; simpl; [reflexivity|]. now rewrite IH.
Qed.

Lemma update_nth_same (v : nat) (f : WaveformView.t -> WaveformView.t)
    (vs : list WaveformView.t) :
  nth_error (update_nth v f vs) v = option_map f (nth_error vs v).
Proof.
  revert v. induction vs as [|w r IH]; intros v.
  - now destruct v.
  - destruct v as [|v]; simpl; [reflexivity|]. apply IH.
Qed.

Lemma update_nth_other (u v : nat) (f : WaveformView.t -> WaveformView.t)
    (vs : list WaveformView.t) :
  u <> v -> nth_error (update_nth u f vs) v = nth_error vs v.
Proof.
  revert u v. induction vs as [|w r IH]; intros u v Hne.
  - now destruct u.
  - destruct u as [|u], v as [|v]; simpl; try reflexivity.
    + congruence.
    + apply IH. congruence.
Qed.

Lemma update_nth_compose (v : nat) (f g : WaveformView.t -> WaveformView.t)
    (vs : list WaveformView.t) :
  update_nth v g (update_nth v f vs) = update_nth v (fun x => g (f x)) vs.
Proof.
  revert v. induction vs as [|w r IH]; intros v; [reflexivity|].
  destruct v as [|v]; simpl; [reflexivity|]. now rewrite IH.
Qed.

Lemma update_nth_ext (v : nat) (f g : WaveformView.t -> WaveformView.t)
    (vs : list WaveformView.t) :
  (forall x, f x = g x) -> update_nth v f vs = update_nth v g vs.
Proof.
  intros Hfg. revert v. induction vs as [|w r IH]; intros v; [reflexivity|].
  destruct v as [|v]; simpl; [now rewrite Hfg|]. now rewrite IH.
Qed.

(** The four statements of [on_select], done one after the other on the
    same view. *)
Lemma update_nth_on_select (v : nat) (w k : list Z) (spikes : list SpikeId)
    (vs : list WaveformView.t) :
  update_nth v WaveformView.update
    (update_nth v (WaveformView.set_spike_ids spikes)
       (update_nth v (WaveformView.set_masks k)
          (update_nth v (WaveformView.set_waveforms w) vs)))
  = update_nth v (WaveformView.on_select w k spikes) vs.
Proof.
  rewrite !update_nth_compose. apply update_nth_ext.
  intros x. reflexivity.
Qed.

(** A view callback touches the contents of the views and the trace
    only. *)
Lemma notify_view_core (cb : Callback) (e : Event) (s : t) :
  is_view_cb cb = true -> core (snd (notify cb e s)) = core s.
Proof.
  intros Hv. destruct cb; try discriminate; destruct e;
    try reflexivity.
  - destruct s as [mo fn b ac cbs h c md sel vs tr].
    cbv [notify handles run_callback view_on_open bind log modify gets
         getattr update_view ret].
    simpl. destruct mo as [m|]; [|reflexivity].
    destruct c as [c|]; [|reflexivity].
    unfold metadata. simpl. destruct md as [[]|]; [|reflexivity].
    unfold core. simpl. now rewrite update_nth_length.
  - destruct s as [mo fn b ac cbs h c md sel vs tr].
    cbv [notify handles run_callback view_on_select bind log modify gets
         getattr update_view ret index raise].
    simpl. destruct sel as [sel|]; [|reflexivity].
    destruct (length (Selector.selected_spikes sel) =? 0)%nat;
      [reflexivity|].
    destruct mo as [m|]; [|reflexivity]. simpl.
    destruct (take_rows (Model.waveforms m) (Selector.selected_spikes sel));
      [|reflexivity]. simpl.
    destruct (take_rows (Model.masks m) (Selector.selected_spikes sel));
      unfold core; simpl; now rewrite !update_nth_length.
Qed.

Lemma deliver_views_core (cbs : list Callback) (e : Event) :
  forallb is_view_cb cbs = true ->
  forall s, core (snd (deliver cbs e s)) = core s.
Proof.
  induction cbs as [|cb r IH]; intros Hall s; [reflexivity|].
  simpl in Hall. apply andb_true_iff in Hall. destruct Hall as [Hcb Hr].
  rewrite deliver_cons.
  pose proof (notify_view_core cb e s Hcb) as Hn.
  destruct (notify cb e s) as [[x|[]] s']; simpl in Hn.
  - exact Hn.
  - rewrite IH by assumption. exact Hn.
Qed.

(** For a [cluster] event the view callbacks do nothing: the delivery
    returns and only the trace grows. *)
Lemma deliver_views_cluster (cbs : list Callback)
    (up : option UpdateDescriptor) (a : option bool) :
  forallb is_view_cb cbs = true ->
  forall s,
    deliver cbs (Cluster_event up a) s
    = (inr tt, with_trace (trace s ++ calls cbs (Cluster_event up a)) s).
Proof.
  induction cbs as [|cb r IH]; intros Hall s.
  - simpl. unfold calls. simpl. rewrite app_nil_r, with_trace_same.
    reflexivity.
  - simpl in Hall. apply andb_true_iff in Hall. destruct Hall as [Hcb Hr].
    rewrite deliver_cons, calls_cons.
    destruct cb; try discriminate;
      cbv [notify handles run_callback view_on_cluster bind log modify ret];
      rewrite IH by assumption; simpl; try reflexivity.
    now rewrite <- app_assoc.
Qed.

Lemma emit_unfold (e : Event) (s : t) :
  emit e s
  = deliver (_callbacks s) e (with_trace (trace s ++ [Emitted e]) s).
Proof. reflexivity. Qed.

(** A [cluster] event marked [add_to_stack=False]: every observer is
    called, nothing is recorded and nothing but the trace changes. *)
Lemma emit_cluster_silent (s : t) (vcbs : list Callback)
    (up : option UpdateDescriptor) :
  _callbacks s = Session_on_open :: Session_on_cluster :: vcbs ->
  forallb is_view_cb vcbs = true ->
  emit (Cluster_event up (Some false)) s
  = (inr tt,
     with_trace
       (trace s ++ Emitted (Cluster_event up (Some false))
          :: calls (_callbacks s) (Cluster_event up (Some false))) s).
Proof.
  intros Hcbs Hv. rewrite emit_unfold, Hcbs, deliver_cons.
  cbv [notify handles run_callback ret]. rewrite deliver_cons.
  cbv [notify handles run_callback on_cluster bind log modify ret].
  rewrite deliver_views_cluster by assumption.
  rewrite !calls_cons. simpl. rewrite <- !app_assoc. reflexivity.
Qed.

(** A [cluster] event without [add_to_stack]: the session's [on_cluster]
    records the clustering once, then the views are called. *)
Lemma emit_cluster_recorded (s : t) (vcbs : list Callback)
    (up : option UpdateDescriptor) (h : GlobalHistory.t (list ClusterId))
    (c : Clustering.t) :
  _callbacks s = Session_on_open :: Session_on_cluster :: vcbs ->
  forallb is_view_cb vcbs = true ->
  _global_history s = Some h ->
  clustering s = Some c ->
  emit (Cluster_event up None) s
  = (inr tt,
     with_trace
       (trace s ++ Emitted (Cluster_event up None)
          :: Called Session_on_cluster (Cluster_event up None)
          :: Recorded (Clustering.spike_clusters c)
          :: calls vcbs (Cluster_event up None))
       (with_global_history (GlobalHistory.action c h) s)).
Proof.
  intros Hcbs Hv Hh Hc. rewrite emit_unfold, Hcbs, deliver_cons.
  cbv [notify handles run_callback ret]. rewrite deliver_cons.
  cbv [notify handles run_callback on_cluster bind log modify ret getattr].
  simpl. rewrite Hh. simpl. rewrite Hc.
  rewrite deliver_views_cluster by assumption.
  simpl. rewrite <- !app_assoc. reflexivity.
Qed.

(** An [open] event among the views of an opened session: each
    [on_open] closure refreshes its view; none raises. *)
Lemma deliver_views_open (vcbs : list Callback) (m : Model.t)
    (c : Clustering.t) :
  forallb is_view_cb vcbs = true ->
  forall s,
    model s = Some m ->
    clustering s = Some c ->
    cluster_metadata s = Some metadata_of_model ->
    deliver vcbs Open_event s
    = (inr tt,
       with_views
         (refresh
            (WaveformView.on_open (Clustering.spike_clusters c)
               (Model.cluster_metadata m) (Model.probe_positions m))
            vcbs (views s))
         (with_trace (trace s ++ calls vcbs Open_event) s)).
Proof.
  induction vcbs as [|cb r IH]; intros Hall s Hm Hc Hmd.
  - simpl. unfold calls. simpl. rewrite app_nil_r. now destruct s.
  - simpl in Hall. apply andb_true_iff in Hall. destruct Hall as [Hcb Hr].
    rewrite deliver_cons, calls_cons.
    destruct cb; try discriminate.
    + cbv [notify handles run_callback view_on_open bind log modify gets
           getattr update_view ret].
      simpl. rewrite Hm. simpl. rewrite Hc. unfold metadata. simpl.
      rewrite Hmd, Hm. rewrite IH by assumption.
      simpl. rewrite <- app_assoc. reflexivity.
    + cbv [notify handles ret]. now rewrite IH.
    + cbv [notify handles ret]. now rewrite IH.
Qed.

Lemma emit_open (s : t) (vcbs : list Callback) (m : Model.t) :
  _callbacks s = Session_on_open :: Session_on_cluster :: vcbs ->
  forallb is_view_cb vcbs = true ->
  model s = Some m ->
  emit Open_event s
  = (inr tt,
     with_views
       (refresh
          (WaveformView.on_open (Model.spike_clusters m)
             (Model.cluster_metadata m) (Model.probe_positions m))
          vcbs (views s))
       (with_trace (trace s ++ Emitted Open_event
                      :: calls (_callbacks s) Open_event)
          (on_opened m s))).
Proof.
  intros Hcbs Hv Hm. rewrite emit_unfold, Hcbs, deliver_cons.
  cbv [notify handles run_callback on_open bind log modify ret getattr].
  simpl. rewrite Hm. cbv [bind ret].
  rewrite (deliver_views_open vcbs m (Clustering.init (Model.spike_clusters m)))
    by (assumption || reflexivity).
  rewrite !calls_cons. simpl. rewrite <- !app_assoc. reflexivity.
Qed.

(** A [select] event reaches the views only. *)
Lemma emit_select_core (s : t) (vcbs : list Callback) :
  _callbacks s = Session_on_open :: Session_on_cluster :: vcbs ->
  forallb is_view_cb vcbs = true ->
  core (snd (emit Select_event s)) = core s.
Proof.
  intros Hcbs Hv. rewrite emit_unfold, Hcbs, deliver_cons.
  cbv [notify handles ret]. rewrite deliver_cons. cbv [notify handles ret].
  now rewrite deliver_views_core.
Qed.

(** *** The mutating actions *)

Section Mutations.

Variables (s : t) (vcbs : list Callback)
  (h : GlobalHistory.t (list ClusterId)) (c : Clustering.t).
Hypothesis Hcbs : _callbacks s = Session_on_open :: Session_on_cluster :: vcbs.
Hypothesis Hviews : forallb is_view_cb vcbs = true.
Hypothesis Hh : _global_history s = Some h.
Hypothesis Hc : clustering s = Some c.

Lemma mutate_ok
    (f : Clustering.t -> (Exn + UpdateDescriptor) * Clustering.t)
    (up : UpdateDescriptor) (c' : Clustering.t) :
  f c = (inr up, c') ->
  (up <- on_clustering f ;; emit (Cluster_event (Some up) None)) s
  = (inr tt,
     with_trace
       (trace s ++ recorded_trace vcbs up (Clustering.spike_clusters c'))
       (with_global_history (GlobalHistory.action c' h)
          (with_clustering c' s))).
Proof.
  intros Hf. cbv [on_clustering bind getattr modify ret].
  rewrite Hc, Hf.
  rewrite (emit_cluster_recorded _ vcbs _ h c')
    by first [reflexivity | assumption].
  reflexivity.
Qed.

Lemma mutate_err
    (f : Clustering.t -> (Exn + UpdateDescriptor) * Clustering.t)
    (x : Exn) :
  f c = (inl x, c) ->
  (up <- on_clustering f ;; emit (Cluster_event (Some up) None)) s
  = (inl x, s).
Proof.
  intros Hf. cbv [on_clustering bind getattr modify raise].
  rewrite Hc, Hf. now rewrite with_clustering_same.
Qed.

Lemma move_ok (m : Model.t) (clusters : list ClusterId) (g : Group) :
  model s = Some m ->
  cluster_metadata s = Some metadata_of_model ->
  let r := ClusterMetadata.set_group clusters g (Model.cluster_metadata m) in
  move clusters g s
  = (inr tt,
     with_trace
       (trace s ++ recorded_trace vcbs (fst r) (Clustering.spike_clusters c))
       (with_global_history (GlobalHistory.action c h)
          (with_model
             (Some (Model.mk (Model.spike_clusters m) (snd r)
                      (Model.waveforms m) (Model.masks m)
                      (Model.probe_positions m))) s))).
Proof.
  intros Hm Hmd. cbv [move bind getattr set_metadata modify metadata].
  rewrite Hmd, Hm. simpl. rewrite Hm.
  rewrite (emit_cluster_recorded _ vcbs _ h c)
    by first [reflexivity | assumption].
  reflexivity.
Qed.

Lemma replay_ok
    (f : GlobalHistory.t (list ClusterId) -> Clustering.t ->
         option UpdateDescriptor * GlobalHistory.t (list ClusterId)
         * Clustering.t)
    (up : option UpdateDescriptor) (h' : GlobalHistory.t (list ClusterId))
    (c' : Clustering.t) :
  f h c = (up, h', c') ->
  (up <- on_history f ;; emit (Cluster_event up (Some false))) s
  = (inr tt,
     with_trace
       (trace s ++ Emitted (Cluster_event up (Some false))
          :: calls (_callbacks s) (Cluster_event up (Some false)))
       (with_clustering c' (with_global_history h' s))).
Proof.
  intros Hf. cbv [on_history bind getattr gets modify ret].
  rewrite Hh, Hc, Hf.
  rewrite (emit_cluster_silent _ vcbs) by first [reflexivity | assumption].
  reflexivity.
Qed.

End Mutations.

End Steps.

(** ** The clustering *)

Module ClusteringFacts.
Import Notions.

Lemma bounded_mono (n n' : Z) (l : list ClusterId) :
  n <= n' -> bounded n l -> bounded n' l.
Proof.
  intros Hle Hb. eapply Forall_impl; [|exact Hb].
  intros x Hx. simpl in Hx. lia.
Qed.

Lemma bounded_max_id (sc : list ClusterId) :
  bounded (Clustering.max_id sc + 1) sc.
Proof.
  induction sc as [|x r IH]; constructor.
  - simpl. lia.
  - eapply bounded_mono; [|exact IH]. simpl. lia.
Qed.

Lemma bounded_relabel_clusters (ids sc : list ClusterId) (n : Z) :
  bounded n sc ->
  bounded (n + 1) (Clustering.relabel_clusters ids n sc).
Proof.
  intros Hb. unfold Clustering.relabel_clusters, bounded.
  rewrite Forall_map. eapply Forall_impl; [|exact Hb].
  intros x Hx. simpl in Hx. destruct (memZ x ids); lia.
Qed.

Lemma bounded_relabel_spikes (spikes : list SpikeId) (sc : list ClusterId)
    (n : Z) (i : nat) :
  bounded n sc ->
  bounded (n + 1) (Clustering.relabel_spikes spikes n i sc).
Proof.
  intros Hb. revert i. induction Hb as [|x r Hx Hr IH]; intros i; simpl.
  - constructor.
  - constructor; [|apply IH]. destruct (memN i spikes); lia.
Qed.

(** *** merge *)

Lemma merge_cases (clusters : list ClusterId) (c : Clustering.t) :
  Clustering.merge clusters c = (inl InvalidOperation, c)
  \/ Clustering.merge clusters c
     = (inr (fst (merged clusters c)), snd (merged clusters c)).
Proof.
  unfold Clustering.merge.
  destruct (length (sorted_set clusters) <? 2)%nat; [now left|].
  destruct (forallb _ (sorted_set clusters)); simpl; [now right|now left].
Qed.

Lemma merge_valid (clusters : list ClusterId) (c : Clustering.t) :
  (exists a b, a <> b /\ In a clusters /\ In b clusters) ->
  (forall x, In x clusters -> In x (Clustering.cluster_ids c)) ->
  Clustering.merge clusters c
  = (inr (fst (merged clusters c)), snd (merged clusters c)).
Proof.
  intros Htwo Hused. unfold Clustering.merge.
  apply distinct_ids_length in Htwo.
  destruct (Nat.ltb_spec (length (sorted_set clusters)) 2); [lia|].
  assert (Hall : forallb (fun x => memZ x (Clustering.cluster_ids c))
                   (sorted_set clusters) = true).
  { apply forallb_forall. intros x Hx. apply memZ_In, Hused.
    now apply sorted_set_In. }
  now rewrite Hall.
Qed.

Lemma merge_invalid (clusters : list ClusterId) (c : Clustering.t) :
  (forall a b, In a clusters -> In b clusters -> a = b)
  \/ (exists x, In x clusters /\ ~ In x (Clustering.cluster_ids c)) ->
  Clustering.merge clusters c = (inl InvalidOperation, c).
Proof.
  intros Hbad. unfold Clustering.merge.
  destruct (Nat.ltb_spec (length (sorted_set clusters)) 2) as [|Hlen];
    [reflexivity|].
  destruct Hbad as [Hone|[x [Hx Hnot]]].
  - apply distinct_ids_length in Hlen.
    destruct Hlen as [a [b [Hne [Ha Hb]]]]. now destruct Hne; apply Hone.
  - assert (Hall : forallb (fun x => memZ x (Clustering.cluster_ids c))
                     (sorted_set clusters) = false).
    { apply not_true_iff_false. intros Hall.
      rewrite forallb_forall in Hall. apply Hnot, memZ_In, Hall.
      now apply sorted_set_In. }
    now rewrite Hall.
Qed.

(** What relabelling does to each spike and to the set of ids. *)
Lemma relabel_clusters_nth (ids sc : list ClusterId) (new : ClusterId)
    (i : nat) :
  (i < length sc)%nat ->
  nth i (Clustering.relabel_clusters ids new sc) 0
  = if memZ (nth i sc 0) ids then new else nth i sc 0.
Proof.
  unfold Clustering.relabel_clusters. revert i.
  induction sc as [|x r IH]; intros i Hi; simpl in *; [lia|].
  destruct i as [|i]; [reflexivity|]. apply IH. lia.
Qed.

Lemma relabel_clusters_In (ids sc : list ClusterId) (new y : ClusterId) :
  In y (Clustering.relabel_clusters ids new sc)
  <-> (y = new /\ exists x, In x sc /\ In x ids)
      \/ (In y sc /\ ~ In y ids).
Proof.
  unfold Clustering.relabel_clusters. rewrite in_map_iff. split.
  - intros [x [Hy Hx]]. destruct (memZ x ids) eqn:Hm.
    + left. apply memZ_In in Hm. split; [now symmetry|]. now exists x.
    + right. apply memZ_not_In in Hm. now subst.
  - intros [[-> [x [Hx Hin]]]|[Hy Hnot]].
    + exists x. apply memZ_In in Hin. now rewrite Hin.
    + exists y. apply memZ_not_In in Hnot. now rewrite Hnot.
Qed.

(** *** split *)

Lemma split_cases (spikes : list SpikeId) (c : Clustering.t) :
  Clustering.split spikes c = (inl InvalidOperation, c)
  \/ Clustering.split spikes c
     = (inr (fst (splitted spikes c)), snd (splitted spikes c)).
Proof.
  unfold Clustering.split. destruct spikes as [|i r]; [now left|].
  match goal with
  | |- context [negb ?b] => destruct b; simpl; [now right|now left]
  end.
Qed.

Lemma split_invalid (spikes : list SpikeId) (c : Clustering.t) :
  spikes = []
  \/ (exists i, In i spikes
                /\ (length (Clustering.spike_clusters c) <= i)%nat) ->
  Clustering.split spikes c = (inl InvalidOperation, c).
Proof.
  intros [->|[i [Hi Hout]]]; [reflexivity|].
  unfold Clustering.split. destruct spikes as [|j r]; [reflexivity|].
  assert (Hall : forallb
                   (fun i => (i <? length (Clustering.spike_clusters c))%nat)
                   (j :: r) = false).
  { apply not_true_iff_false. intros Hall.
    rewrite forallb_forall in Hall. specialize (Hall i Hi).
    apply Nat.ltb_lt in Hall. lia. }
  now rewrite Hall.
Qed.

End ClusteringFacts.

(** ** The invariant of reachable sessions *)

Module Invariant.
Import Session Notions Steps ClusteringFacts.

Lemma inv_cases (s : t) :
  inv s ->
  exists vcbs,
    _callbacks s = Session_on_open :: Session_on_cluster :: vcbs
    /\ forallb is_view_cb vcbs = true
    /\ (forall cb v, In cb vcbs -> view_of cb = Some v ->
                     (v < length (views s))%nat)
    /\ ((exists m h c sel, is_opened s m h c sel /\ opened_inv h c)
        \/ is_unopened s).
Proof.
  intros [[vcbs [Hcbs [Hv Hidx]]] Hsub]. exists vcbs.
  repeat split; try assumption. unfold is_opened, is_unopened.
  destruct (model s) as [m|], (_global_history s) as [h|],
    (clustering s) as [c|], (cluster_metadata s) as [[]|],
    (selector s) as [sel|]; try contradiction.
  - left. exists m, h, c, sel. tauto.
  - right. tauto.
Qed.

Lemma inv_opened (s : t) (vcbs : list Callback) (m : Model.t)
    (h : GlobalHistory.t (list ClusterId)) (c : Clustering.t)
    (sel : Selector.t) :
  _callbacks s = Session_on_open :: Session_on_cluster :: vcbs ->
  forallb is_view_cb vcbs = true ->
  (forall cb v, In cb vcbs -> view_of cb = Some v ->
                (v < length (views s))%nat) ->
  is_opened s m h c sel ->
  opened_inv h c ->
  inv s.
Proof.
  intros Hcbs Hv Hidx [Hm [Hh [Hc [Hmd Hsel]]]] Hinv. split.
  - now exists vcbs.
  - now rewrite Hm, Hh, Hc, Hmd, Hsel.
Qed.

Lemma inv_core (s s' : t) : core s' = core s -> inv s -> inv s'.
Proof.
  unfold core, inv. intros Heq. injection Heq as -> _ _ _ -> -> -> -> -> ->.
  tauto.
Qed.

Lemma core_bind {A B : Type} (x : M A) (k : A -> M B) (s : t) :
  (forall s, core (snd (x s)) = core s) ->
  (forall a s, core (snd (k a s)) = core s) ->
  core (snd (bind x k s)) = core s.
Proof.
  intros Hx Hk. unfold bind. specialize (Hx s).
  destruct (x s) as [[e|a] s1]; simpl in Hx; [assumption|].
  now rewrite Hk.
Qed.

Lemma view_on_open_core (v : nat) (s : t) :
  core (snd (view_on_open v s)) = core s.
Proof.
  destruct s as [mo fn b ac cbs h c md sel vs tr].
  cbv [view_on_open bind gets getattr update_view modify ret].
  simpl. destruct mo as [m|]; [|reflexivity].
  destruct c as [c|]; [|reflexivity].
  unfold metadata. simpl. destruct md as [[]|]; [|reflexivity].
  unfold core. simpl. now rewrite update_nth_length.
Qed.

Lemma view_on_select_core (v : nat) (s : t) :
  core (snd (view_on_select v s)) = core s.
Proof.
  destruct s as [mo fn b ac cbs h c md sel vs tr].
  cbv [view_on_select bind gets getattr update_view modify ret index raise].
  simpl. destruct sel as [sel|]; [|reflexivity].
  destruct (length (Selector.selected_spikes sel) =? 0)%nat;
    [reflexivity|].
  destruct mo as [m|]; [|reflexivity]. simpl.
  destruct (take_rows (Model.waveforms m) (Selector.selected_spikes sel));
    [|reflexivity]. simpl.
  destruct (take_rows (Model.masks m) (Selector.selected_spikes sel));
    unfold core; simpl; now rewrite !update_nth_length.
Qed.

Lemma refresh_length (f : WaveformView.t -> WaveformView.t)
    (cbs : list Callback) (vs : list WaveformView.t) :
  length (refresh f cbs vs) = length vs.
Proof.
  revert vs. induction cbs as [|cb r IH]; intros vs; [reflexivity|].
  destruct cb; simpl; rewrite IH; try reflexivity.
  apply update_nth_length.
Qed.

(** *** The history and the clustering *)

Lemma opened_inv_init (sc : list ClusterId) :
  opened_inv GlobalHistory.empty (Clustering.init sc).
Proof.
  constructor; simpl; try constructor.
  - apply bounded_max_id.
  - discriminate.
Qed.

Lemma Forall_bounded_mono (n n' : Z) (l : list (list ClusterId)) :
  n <= n' -> Forall (bounded n) l -> Forall (bounded n') l.
Proof.
  intros Hle. apply Forall_impl. intros a. now apply bounded_mono.
Qed.

Lemma opened_inv_action (h : GlobalHistory.t (list ClusterId))
    (c c' : Clustering.t) :
  opened_inv h c ->
  Clustering.next_id c <= Clustering.next_id c' ->
  bounded (Clustering.next_id c') (Clustering.spike_clusters c') ->
  opened_inv (GlobalHistory.action c' h) c'.
Proof.
  intros [Hids Hundo Hredo Htop] Hle Hb. constructor; simpl.
  - assumption.
  - constructor; [assumption|]. now apply (Forall_bounded_mono _ _ _ Hle).
  - constructor.
  - intros top rest Heq. now injection Heq as <- _.
Qed.

Lemma opened_inv_undo (h h' : GlobalHistory.t (list ClusterId))
    (c c' : Clustering.t) (up : option UpdateDescriptor) :
  opened_inv h c ->
  GlobalHistory.undo h c = (up, h', c') ->
  opened_inv h' c'.
Proof.
  intros [Hids Hundo Hredo Htop]. unfold GlobalHistory.undo.
  destruct (GlobalHistory.undo_stack h) as [|top [|below rest]] eqn:Hst;
    intros Heq; injection Heq as <- <- <-;
    try (constructor; now rewrite ?Hst).
  inversion Hundo as [|? ? Htopb Hrest]; subst.
  inversion Hrest as [|? ? Hbelow Hrest']; subst.
  constructor; simpl.
  - assumption.
  - now constructor.
  - now constructor.
  - intros top' rest' Heq. now injection Heq as <- _.
Qed.

Lemma opened_inv_redo (h h' : GlobalHistory.t (list ClusterId))
    (c c' : Clustering.t) (up : option UpdateDescriptor) :
  opened_inv h c ->
  GlobalHistory.redo h c = (up, h', c') ->
  opened_inv h' c'.
Proof.
  intros [Hids Hundo Hredo Htop]. unfold GlobalHistory.redo.
  destruct (GlobalHistory.redo_stack h) as [|e r] eqn:Hst;
    intros Heq; injection Heq as <- <- <-.
  - constructor; now rewrite ?Hst.
  - inversion Hredo as [|? ? He Hr]; subst.
    constructor; simpl.
    + assumption.
    + now constructor.
    + assumption.
    + intros top' rest' Heq. now injection Heq as <- _.
Qed.

(** *** The actions, one by one *)

Section Actions.

Variable KwikModel : option string -> option Model.t.

Lemma open_fail (s : t) (fn : option string) :
  KwikModel fn = None ->
  open KwikModel fn None s = (inl IOError, s).
Proof.
  intros Hload. cbv [open bind raise]. now rewrite Hload.
Qed.

Lemma open_ok (s : t) (vcbs : list Callback) (fn : option string)
    (mo : option Model.t) (m : Model.t) :
  _callbacks s = Session_on_open :: Session_on_cluster :: vcbs ->
  forallb is_view_cb vcbs = true ->
  loads KwikModel fn mo m ->
  open KwikModel fn mo s = (inr tt, opened_on fn m vcbs s).
Proof.
  intros Hcbs Hv Hload. unfold open.
  assert (Hm : (match mo with
                | Some m => ret m
                | None => match KwikModel fn with
                          | Some m => ret m
                          | None => raise IOError
                          end
                end) s = (inr m, s)).
  { destruct Hload as [->|[-> Hk]]; [reflexivity|]. now rewrite Hk. }
  unfold bind at 1. rewrite Hm. cbv [bind modify].
  rewrite (emit_open _ vcbs m) by first [reflexivity | assumption].
  reflexivity.
Qed.

Lemma unopened_raises (s : t) (op : Op) :
  _global_history s = None -> clustering s = None ->
  cluster_metadata s = None -> selector s = None ->
  needs_open op = true ->
  exists a, run KwikModel op s = (inl (AttributeError a), s).
Proof.
  intros Hh Hc Hmd Hsel Hop. destruct op; try discriminate; simpl.
  - exists "selector"%string. cbv [select bind getattr]. now rewrite Hsel.
  - exists "clustering"%string.
    cbv [merge on_clustering bind getattr]. now rewrite Hc.
  - exists "clustering"%string.
    cbv [split on_clustering bind getattr]. now rewrite Hc.
  - exists "cluster_metadata"%string.
    cbv [move bind getattr metadata]. now rewrite Hmd.
  - exists "_global_history"%string.
    cbv [undo on_history bind getattr]. now rewrite Hh.
  - exists "_global_history"%string.
    cbv [redo on_history bind getattr]. now rewrite Hh.
Qed.

Lemma inv_init (backend : option string) : inv (__init__ backend).
Proof.
  split; [|exact I]. exists []. repeat split. intros cb v [].
Qed.

(** Callbacks and views may change as long as the callbacks keep their
    shape; the attributes bound by [on_open] stay. *)
Lemma inv_frame (s s' : t) (vcbs' : list Callback) :
  inv s ->
  _callbacks s' = Session_on_open :: Session_on_cluster :: vcbs' ->
  forallb is_view_cb vcbs' = true ->
  (forall cb v, In cb vcbs' -> view_of cb = Some v ->
                (v < length (views s'))%nat) ->
  (model s', _global_history s', clustering s', cluster_metadata s',
   selector s')
  = (model s, _global_history s, clustering s, cluster_metadata s,
     selector s) ->
  inv s'.
Proof.
  intros [_ Hsub] Hcbs Hv Hidx Heq. injection Heq as Hm Hh Hc Hmd Hsel.
  split.
  - now exists vcbs'.
  - now rewrite Hm, Hh, Hc, Hmd, Hsel.
Qed.

Lemma inv_opened_on (s : t) (vcbs : list Callback) (fn : option string)
    (m : Model.t) :
  _callbacks s = Session_on_open :: Session_on_cluster :: vcbs ->
  forallb is_view_cb vcbs = true ->
  (forall cb v, In cb vcbs -> view_of cb = Some v ->
                (v < length (views s))%nat) ->
  inv (opened_on fn m vcbs s).
Proof.
  intros Hcbs Hv Hidx.
  apply (inv_opened _ vcbs m GlobalHistory.empty
           (Clustering.init (Model.spike_clusters m))
           (Selector.init (Model.spike_clusters m) 100)).
  - exact Hcbs.
  - exact Hv.
  - intros cb v Hin Hview. simpl. rewrite refresh_length. eauto.
  - repeat split.
  - apply opened_inv_init.
Qed.

Lemma snd_bind_ret {A B : Type} (x : M A) (b : B) (s : t) :
  snd ((x ;;; ret b) s) = snd (x s).
Proof.
  unfold bind, ret. now destruct (x s) as [[e|a] s1].
Qed.

(** The session in which [show_waveforms] has made its view and
    connected its three closures. *)
Lemma show_waveforms_core (s : t) :
  let v := length (views s) in
  core (snd (show_waveforms s))
  = core (connect (View_on_select v)
            (connect (View_on_cluster v)
               (connect (View_on_open v)
                  (with_views
                     (views s ++ [WaveformView.init
                                    (backend_is_qt (_backend s))]) s)))).
Proof.
  intros v. unfold show_waveforms.
  unfold bind at 1. unfold gets at 1.
  unfold bind at 1. unfold gets at 1.
  unfold bind at 1. unfold modify at 1.
  unfold bind at 1. unfold modify at 1.
  unfold bind at 1. unfold modify at 1.
  unfold bind at 1. unfold modify at 1.
  fold v.
  apply core_bind.
  - intros s1. unfold update_view, modify, core. simpl.
    now rewrite update_nth_length.
  - intros _ s1. apply core_bind; [apply view_on_open_core|].
    intros _ s2. apply core_bind; [apply view_on_select_core|].
    reflexivity.
Qed.

Lemma forallb_filter (p q : Callback -> bool) (l : list Callback) :
  forallb p l = true -> forallb p (filter q l) = true.
Proof.
  rewrite !forallb_forall. intros Hall x Hx.
  apply filter_In in Hx. now apply Hall.
Qed.

Lemma inv_after (op : Op) (s : t) : inv s -> inv (after KwikModel op s).
Proof.
  intros Hinv.
  destruct (inv_cases s Hinv) as [vcbs [Hcbs [Hv [Hidx Hst]]]].
  unfold after.
  destruct op as [fn mo|cl|cl|sp|cl g| | | |v].
  - (* open *)
    simpl. destruct mo as [m|]; [|destruct (KwikModel fn) as [m|] eqn:Hk].
    + rewrite (open_ok s vcbs fn (Some m) m) by (assumption || now left).
      now apply inv_opened_on.
    + rewrite (open_ok s vcbs fn None m) by (assumption || now right).
      now apply inv_opened_on.
    + now rewrite open_fail.
  - (* select *)
    destruct Hst as [[m [h [c [sel [Hop Hoi]]]]]|Hun].
    + destruct Hop as [Hm [Hh [Hc [Hmd Hsel]]]].
      simpl. cbv [select bind getattr modify]. rewrite Hsel.
      eapply inv_core; [now apply (emit_select_core _ vcbs)|].
      apply (inv_opened _ vcbs m h c
               (Selector.set_selected_clusters cl sel)); try assumption.
      repeat split; assumption.
    + destruct Hun as [_ [Hh [Hc [Hmd Hsel]]]].
      destruct (unopened_raises s (Select cl) Hh Hc Hmd Hsel eq_refl)
        as [a ->]. exact Hinv.
  - (* merge *)
    destruct Hst as [[m [h [c [sel [Hop Hoi]]]]]|Hun].
    + destruct Hop as [Hm [Hh [Hc [Hmd Hsel]]]]. simpl. unfold merge.
      destruct (merge_cases cl c) as [He|Hok].
      * now rewrite (mutate_err s c Hc _ _ He).
      * rewrite (mutate_ok s vcbs h c Hcbs Hv Hh Hc _ _ _ Hok).
        apply (inv_opened _ vcbs m
                 (GlobalHistory.action (snd (merged cl c)) h)
                 (snd (merged cl c)) sel); try assumption.
        -- repeat split; assumption.
        -- apply (opened_inv_action h c); [assumption|simpl; lia|].
           apply bounded_relabel_clusters, Hoi.
    + destruct Hun as [_ [Hh [Hc [Hmd Hsel]]]].
      destruct (unopened_raises s (Merge cl) Hh Hc Hmd Hsel eq_refl)
        as [a ->]. exact Hinv.
  - (* split *)
    destruct Hst as [[m [h [c [sel [Hop Hoi]]]]]|Hun].
    + destruct Hop as [Hm [Hh [Hc [Hmd Hsel]]]]. simpl. unfold split.
      destruct (split_cases sp c) as [He|Hok].
      * now rewrite (mutate_err s c Hc _ _ He).
      * rewrite (mutate_ok s vcbs h c Hcbs Hv Hh Hc _ _ _ Hok).
        apply (inv_opened _ vcbs m
                 (GlobalHistory.action (snd (splitted sp c)) h)
                 (snd (splitted sp c)) sel); try assumption.
        -- repeat split; assumption.
        -- apply (opened_inv_action h c); [assumption|simpl; lia|].
           apply bounded_relabel_spikes, Hoi.
    + destruct Hun as [_ [Hh [Hc [Hmd Hsel]]]].
      destruct (unopened_raises s (Split sp) Hh Hc Hmd Hsel eq_refl)
        as [a ->]. exact Hinv.
  - (* move *)
    destruct Hst as [[m [h [c [sel [Hop Hoi]]]]]|Hun].
    + destruct Hop as [Hm [Hh [Hc [Hmd Hsel]]]]. simpl.
      rewrite (move_ok s vcbs h c Hcbs Hv Hh Hc m cl g Hm Hmd).
      eapply (inv_opened _ vcbs _ (GlobalHistory.action c h) c sel);
        try assumption.
      -- repeat split; assumption.
      -- apply (opened_inv_action h c); [assumption|lia|apply Hoi].
    + destruct Hun as [_ [Hh [Hc [Hmd Hsel]]]].
      destruct (unopened_raises s (Move cl g) Hh Hc Hmd Hsel eq_refl)
        as [a ->]. exact Hinv.
  - (* undo *)
    destruct Hst as [[m [h [c [sel [Hop Hoi]]]]]|Hun].
    + destruct Hop as [Hm [Hh [Hc [Hmd Hsel]]]]. simpl. unfold undo.
      destruct (GlobalHistory.undo h c) as [[up h'] c'] eqn:Hu.
      rewrite (replay_ok s vcbs h c Hcbs Hv Hh Hc _ _ _ _ Hu).
      apply (inv_opened _ vcbs m h' c' sel); try assumption.
      -- repeat split; assumption.
      -- eapply opened_inv_undo; eassumption.
    + destruct Hun as [_ [Hh [Hc [Hmd Hsel]]]].
      destruct (unopened_raises s Undo Hh Hc Hmd Hsel eq_refl)
        as [a ->]. exact Hinv.
  - (* redo *)
    destruct Hst as [[m [h [c [sel [Hop Hoi]]]]]|Hun].
    + destruct Hop as [Hm [Hh [Hc [Hmd Hsel]]]]. simpl. unfold redo.
      destruct (GlobalHistory.redo h c) as [[up h'] c'] eqn:Hu.
      rewrite (replay_ok s vcbs h c Hcbs Hv Hh Hc _ _ _ _ Hu).
      apply (inv_opened _ vcbs m h' c' sel); try assumption.
      -- repeat split; assumption.
      -- eapply opened_inv_redo; eassumption.
    + destruct Hun as [_ [Hh [Hc [Hmd Hsel]]]].
      destruct (unopened_raises s Redo Hh Hc Hmd Hsel eq_refl)
        as [a ->]. exact Hinv.
  - (* show_waveforms *)
    simpl. rewrite snd_bind_ret.
    eapply inv_core; [apply show_waveforms_core|].
    eapply (inv_frame s _
              (vcbs ++ [View_on_open (length (views s));
                        View_on_cluster (length (views s));
                        View_on_select (length (views s))])).
    + exact Hinv.
    + unfold connect. simpl. rewrite Hcbs. simpl.
      now rewrite <- !app_assoc.
    + rewrite forallb_app, Hv. reflexivity.
    + intros cb v Hin Hview. simpl. rewrite length_app. simpl.
      apply in_app_or in Hin. destruct Hin as [Hin|Hin].
      * specialize (Hidx cb v Hin Hview). lia.
      * simpl in Hin.
        destruct Hin as [<-|[<-|[<-|[]]]]; injection Hview as <-; lia.
    + reflexivity.
  - (* a view is closed *)
    simpl. unfold close_view, modify. simpl.
    eapply (inv_frame s _ (filter _ vcbs)).
    + exact Hinv.
    + unfold unconnect. simpl. rewrite Hcbs. simpl. reflexivity.
    + now apply forallb_filter.
    + intros cb u Hin Hview. simpl. apply filter_In in Hin.
      now apply (Hidx cb u).
    + reflexivity.
Qed.

Theorem reachable_inv (s : t) : reachable KwikModel s -> inv s.
Proof.
  induction 1 as [b|op s Hr IH]; [apply inv_init|now apply inv_after].
Qed.

End Actions.

End Invariant.

(** * Properties of the session *)

Import Session Notions Steps ClusteringFacts Invariant.

(** An opened, reachable session: its callbacks, history and clustering. *)
Lemma reachable_opened (KwikModel : option string -> option Model.t)
    (s : t) (c : Clustering.t) :
  reachable KwikModel s ->
  clustering s = Some c ->
  exists vcbs m h sel,
    _callbacks s = Session_on_open :: Session_on_cluster :: vcbs
    /\ forallb is_view_cb vcbs = true
    /\ is_opened s m h c sel /\ opened_inv h c.
Proof.
  intros Hr Hc. apply reachable_inv in Hr.
  destruct (inv_cases s Hr) as [vcbs [Hcbs [Hv [_ Hst]]]].
  destruct Hst as [[m [h [c0 [sel [Hop Hoi]]]]]|Hun].
  - assert (c0 = c) as ->.
    { destruct Hop as [_ [_ [Hc0 _]]]. congruence. }
    now exists vcbs, m, h, sel.
  - destruct Hun as [_ [_ [Hc0 _]]]. congruence.
Qed.

Lemma bounded_not_In (n : Z) (l : list ClusterId) :
  bounded n l -> ~ In n l.
Proof.
  intros Hb Hin. unfold bounded in Hb. rewrite Forall_forall in Hb.
  specialize (Hb n Hin). simpl in Hb. lia.
Qed.

(** C1.  A valid merge of two or more distinct cluster ids in use makes
    exactly one new cluster id, never used before, whose spikes are
    exactly the spikes of the merged clusters; the merged ids are no
    longer in [cluster_ids]; the descriptor that [Clustering.merge]
    returns and the [cluster] event carries reports the merged ids as
    removed and the new id as added and selected. *)
Theorem C1_merge_mints_one_cluster
    (KwikModel : option string -> option Model.t)
    (s : t) (c : Clustering.t) (clusters : list ClusterId) :
  reachable KwikModel s ->
  clustering s = Some c ->
  (exists a b, a <> b /\ In a clusters /\ In b clusters) ->
  (forall x, In x clusters -> In x (Clustering.cluster_ids c)) ->
  exists (new : ClusterId) (c' : Clustering.t) (up : UpdateDescriptor)
         (rest : list TraceItem),
    let s' := after KwikModel (Merge clusters) s in
    fst (run KwikModel (Merge clusters) s) = inr tt
    /\ clustering s' = Some c'
    /\ ~ In new (Clustering.cluster_ids c)
    /\ (forall h snap,
          _global_history s = Some h ->
          In snap (GlobalHistory.undo_stack h ++ GlobalHistory.redo_stack h) ->
          ~ In new snap)
    /\ (forall x,
          In x (Clustering.cluster_ids c')
          <-> x = new \/ (In x (Clustering.cluster_ids c) /\ ~ In x clusters))
    /\ (forall x, In x clusters -> ~ In x (Clustering.cluster_ids c'))
    /\ length (Clustering.spike_clusters c')
       = length (Clustering.spike_clusters c)
    /\ (forall i,
          (i < length (Clustering.spike_clusters c))%nat ->
          (nth i (Clustering.spike_clusters c') 0 = new
           <-> In (nth i (Clustering.spike_clusters c) 0) clusters)
          /\ (~ In (nth i (Clustering.spike_clusters c) 0) clusters ->
              nth i (Clustering.spike_clusters c') 0
              = nth i (Clustering.spike_clusters c) 0))
    /\ trace s' = trace s ++ Emitted (Cluster_event (Some up) None) :: rest
    /\ (forall x, In x (deleted up) <-> In x clusters)
    /\ added up = [new]
    /\ selected up = [new].
Proof.
  intros Hr Hc Htwo Hused.
  destruct (reachable_opened _ _ _ Hr Hc)
    as [vcbs [m [h [sel [Hcbs [Hv [Hop Hoi]]]]]]].
  destruct Hop as [Hm [Hh [_ [Hmd Hsel]]]].
  pose proof (merge_valid clusters c Htwo Hused) as Hmerge.
  pose proof (mutate_ok s vcbs h c Hcbs Hv Hh Hc _ _ _ Hmerge) as Hrun.
  assert (Hfresh : ~ In (Clustering.next_id c) (Clustering.cluster_ids c)).
  { unfold Clustering.cluster_ids. rewrite sorted_set_In.
    apply bounded_not_In, Hoi. }
  assert (Hids : forall x,
            In x (Clustering.cluster_ids (snd (merged clusters c)))
            <-> x = Clustering.next_id c
                \/ (In x (Clustering.cluster_ids c) /\ ~ In x clusters)).
  { intros x. unfold Clustering.cluster_ids. simpl.
    rewrite sorted_set_In, relabel_clusters_In, !sorted_set_In.
    split; [tauto|]. intros [->|Hx]; [|tauto]. left. split; [reflexivity|].
    destruct Htwo as [a [b [Hne [Ha Hb]]]]. exists a.
    split; [|now apply sorted_set_In].
    apply (sorted_set_In a (Clustering.spike_clusters c)).
    now apply Hused. }
  exists (Clustering.next_id c), (snd (merged clusters c)),
         (fst (merged clusters c)),
         (Called Session_on_cluster
            (Cluster_event (Some (fst (merged clusters c))) None)
          :: Recorded (Clustering.spike_clusters (snd (merged clusters c)))
          :: calls vcbs
               (Cluster_event (Some (fst (merged clusters c))) None)).
  unfold after. simpl run. unfold merge. rewrite Hrun.
  repeat apply conj.
  - reflexivity.
  - reflexivity.
  - exact Hfresh.
  - intros h0 snap Hh0 Hin. rewrite Hh in Hh0. injection Hh0 as <-.
    apply bounded_not_In. apply in_app_or in Hin.
    destruct Hoi as [_ Hundo Hredo _].
    rewrite Forall_forall in Hundo, Hredo. destruct Hin; auto.
  - exact Hids.
  - intros x Hx Hin. apply Hids in Hin. destruct Hin as [->|[_ Hn]].
    + now apply Hfresh, Hused.
    + now apply Hn.
  - simpl. unfold Clustering.relabel_clusters. apply length_map.
  - intros i Hi. simpl. rewrite relabel_clusters_nth by assumption.
    destruct (memZ _ (sorted_set clusters)) eqn:Hmem.
    + apply memZ_In in Hmem. rewrite sorted_set_In in Hmem. tauto.
    + apply memZ_not_In in Hmem. rewrite sorted_set_In in Hmem.
      split; [|reflexivity]. split; [|tauto].
      intros Heq. exfalso. apply Hfresh. rewrite <- Heq.
      unfold Clustering.cluster_ids. apply sorted_set_In.
      now apply nth_In.
  - reflexivity.
  - intros x. simpl. apply sorted_set_In.
  - reflexivity.
  - reflexivity.
Qed.

(** C1 on the dataset of the scenario: clusters 1 and 2 are merged right
    after [open]. *)
Lemma C1_merge_mints_one_cluster_witness :
  exists (new : ClusterId) (c' : Clustering.t) (up : UpdateDescriptor)
         (rest : list TraceItem),
    let s := Example.opened in
    let c := Clustering.mk [1; 1; 2; 2] 3 in
    let s' := after Example.no_file (Merge [1; 2]) s in
    fst (run Example.no_file (Merge [1; 2]) s) = inr tt
    /\ clustering s' = Some c'
    /\ ~ In new (Clustering.cluster_ids c)
    /\ (forall h snap,
          _global_history s = Some h ->
          In snap (GlobalHistory.undo_stack h ++ GlobalHistory.redo_stack h) ->
          ~ In new snap)
    /\ (forall x,
          In x (Clustering.cluster_ids c')
          <-> x = new \/ (In x (Clustering.cluster_ids c) /\ ~ In x [1; 2]))
    /\ (forall x, In x [1; 2] -> ~ In x (Clustering.cluster_ids c'))
    /\ length (Clustering.spike_clusters c')
       = length (Clustering.spike_clusters c)
    /\ (forall i,
          (i < length (Clustering.spike_clusters c))%nat ->
          (nth i (Clustering.spike_clusters c') 0 = new
           <-> In (nth i (Clustering.spike_clusters c) 0) [1; 2])
          /\ (~ In (nth i (Clustering.spike_clusters c) 0) [1; 2] ->
              nth i (Clustering.spike_clusters c') 0
              = nth i (Clustering.spike_clusters c) 0))
    /\ trace s' = trace s ++ Emitted (Cluster_event (Some up) None) :: rest
    /\ (forall x, In x (deleted up) <-> In x [1; 2])
    /\ added up = [new]
    /\ selected up = [new].
Proof.
  apply (C1_merge_mints_one_cluster Example.no_file Example.opened
           (Clustering.mk [1; 1; 2; 2] 3) [1; 2]).
  - apply reachable_step, reachable_init.
  - reflexivity.
  - exists 1, 2. simpl. repeat split; auto. lia.
  - simpl. intros x [<-|[<-|[]]]; auto.
Defined.

(** C4.  A merge with fewer than two distinct cluster ids or with an id
    that is not in use, and a split with no spike or with an unknown
    spike, raise [InvalidOperation] to the caller and leave the whole
    session as it was: assignment, cluster ids, history, and no event is
    emitted. *)
Theorem C4_malformed_calls_rejected
    (KwikModel : option string -> option Model.t)
    (s : t) (c : Clustering.t) :
  clustering s = Some c ->
  (forall clusters,
     (forall a b, In a clusters -> In b clusters -> a = b)
     \/ (exists x, In x clusters /\ ~ In x (Clustering.cluster_ids c)) ->
     run KwikModel (Merge clusters) s = (inl InvalidOperation, s))
  /\ (forall spikes,
        spikes = []
        \/ (exists i, In i spikes
                      /\ (length (Clustering.spike_clusters c) <= i)%nat) ->
        run KwikModel (Split spikes) s = (inl InvalidOperation, s)).
Proof.
  intros Hc. split.
  - intros clusters Hbad. simpl. unfold merge.
    apply (mutate_err s c Hc). now apply merge_invalid.
  - intros spikes Hbad. simpl. unfold split.
    apply (mutate_err s c Hc). now apply split_invalid.
Qed.

(** C4 on the scenario's dataset: merging cluster 1 with itself, merging
    with the unknown cluster 9, splitting nothing and splitting the
    unknown spike 7. *)
Lemma C4_malformed_calls_rejected_witness :
  let s := Example.merged in
  run Example.no_file (Merge [3; 3]) s = (inl InvalidOperation, s)
  /\ run Example.no_file (Merge [3; 9]) s = (inl InvalidOperation, s)
  /\ run Example.no_file (Split []) s = (inl InvalidOperation, s)
  /\ run Example.no_file (Split [7%nat]) s = (inl InvalidOperation, s).
Proof.
  destruct (C4_malformed_calls_rejected Example.no_file Example.merged
              (Clustering.mk [3; 3; 3; 3] 4) eq_refl) as [Hmerge Hsplit].
  repeat apply conj.
  - apply Hmerge. left. simpl. intros a b [<-|[<-|[]]] [<-|[<-|[]]];
      reflexivity.
  - apply Hmerge. right. exists 9. simpl. split; [auto|]. lia.
  - apply Hsplit. now left.
  - apply Hsplit. right. exists 7%nat. simpl. split; [auto|]. lia.
Defined.

(** ** Sessions that were never opened *)

Lemma show_waveforms_unopened (s : t) :
  model s = None -> selector s = None ->
  trace (snd (show_waveforms s)) = trace s.
Proof.
  intros Hm Hsel. destruct s as [mo fn b ac cbs h c md sel vs tr].
  simpl in Hm, Hsel. subst mo sel. reflexivity.
Qed.

Lemma never_opened_reachable (KwikModel : option string -> option Model.t)
    (s : t) :
  never_opened KwikModel s -> reachable KwikModel s.
Proof.
  induction 1; [apply reachable_init|now apply reachable_step].
Qed.

(** Without a successful [open] nothing is bound and nothing was ever
    emitted. *)
Lemma never_opened_unopened (KwikModel : option string -> option Model.t)
    (s : t) :
  never_opened KwikModel s -> is_unopened s /\ trace s = [].
Proof.
  induction 1 as [b|op s Hn [Hun Htr] Hfail].
  - repeat split.
  - pose proof (reachable_inv _ _ (never_opened_reachable _ _ Hn)) as Hinv.
    destruct (inv_cases s Hinv) as [vcbs [Hcbs [Hv [_ _]]]].
    destruct Hun as [Hm [Hh [Hc [Hmd Hsel]]]].
    unfold after.
    destruct op as [fn mo|cl|cl|sp|cl g| | | |v];
      try (match goal with
           | |- context [run _ ?o _] =>
               destruct (unopened_raises KwikModel s o Hh Hc Hmd Hsel
                           eq_refl) as [a ->]
           end; now repeat split).
    + simpl. destruct mo as [m|]; [|destruct (KwikModel fn) as [m|] eqn:Hk].
      * exfalso. apply (Hfail fn (Some m) eq_refl). simpl.
        now rewrite (open_ok KwikModel s vcbs fn (Some m) m)
          by (assumption || now left).
      * exfalso. apply (Hfail fn None eq_refl). simpl.
        now rewrite (open_ok KwikModel s vcbs fn None m)
          by (assumption || now right).
      * rewrite open_fail by assumption. now repeat split.
    + change (run KwikModel Show_waveforms s)
        with ((show_waveforms ;;; ret tt) s).
      rewrite snd_bind_ret.
      rewrite show_waveforms_unopened by assumption.
      pose proof (show_waveforms_core s) as Hcore. simpl in Hcore.
      unfold core in Hcore. simpl in Hcore.
      injection Hcore as E1 _ _ _ _ E2 E3 E4 E5 _.
      unfold is_unopened. rewrite E1, E2, E3, E4, E5. now repeat split.
    + simpl. now repeat split.
Qed.

(** C9.  On a session on which no call of [open] has returned, each of
    [select], [merge], [split], [move], [undo] and [redo] raises
    [AttributeError] at its first attribute access and leaves the session,
    its trace included, as it was; no event was ever emitted. *)
Theorem C9_unopened_actions_raise
    (KwikModel : option string -> option Model.t) (s : t) (op : Op) :
  never_opened KwikModel s ->
  needs_open op = true ->
  (exists a, run KwikModel op s = (inl (AttributeError a), s))
  /\ _global_history s = None /\ clustering s = None
  /\ cluster_metadata s = None /\ selector s = None
  /\ (forall e, ~ In (Emitted e) (trace s)).
Proof.
  intros Hn Hop.
  destruct (never_opened_unopened _ _ Hn) as [[Hm [Hh [Hc [Hmd Hsel]]]] Htr].
  repeat apply conj; try assumption.
  - now apply unopened_raises.
  - intros e. rewrite Htr. intros [].
Qed.

(** C9 on a new session on which [open] has failed to find its file. *)
Lemma C9_unopened_actions_raise_witness :
  let s := after Example.no_file (Open (Some "missing.kwik"%string) None)
             Example.fresh in
  (exists a, run Example.no_file (Merge [1; 2]) s
             = (inl (AttributeError a), s))
  /\ _global_history s = None /\ clustering s = None
  /\ cluster_metadata s = None /\ selector s = None
  /\ (forall e, ~ In (Emitted e) (trace s)).
Proof.
  apply (C9_unopened_actions_raise Example.no_file
           (after Example.no_file (Open (Some "missing.kwik"%string) None)
              Example.fresh) (Merge [1; 2])).
  - apply never_opened_step; [apply never_opened_init|].
    intros f m Heq. injection Heq as <- <-. simpl. discriminate.
  - reflexivity.
Defined.

(** On the models whose assignment can be read, [on_open] and [open] are
    those of the session. *)
Lemma readable_on_open (s : t) :
  Unreadable.on_open Unreadable.readable s = on_open s.
Proof. reflexivity. Qed.

Lemma readable_deliver (cbs : list Callback) (e : Event) :
  forall s,
    Unreadable.deliver Unreadable.readable cbs e s = deliver cbs e s.
Proof.
  induction cbs as [|cb r IH]; intros s; [reflexivity|].
  simpl. unfold bind.
  assert (Hcb : forall s1,
            Unreadable.run_callback Unreadable.readable cb e s1
            = run_callback cb e s1).
  { intros s1. destruct cb, e; reflexivity. }
  destruct (handles cb e).
  - destruct (log (Called cb e) s) as [[x|[]] s1]; [reflexivity|].
    rewrite Hcb. destruct (run_callback cb e s1) as [[x|[]] s2];
      [reflexivity|apply IH].
  - simpl. apply IH.
Qed.

Lemma readable_open (KwikModel : option string -> option Model.t)
    (fn : option string) (mo : option Model.t) (s : t) :
  Unreadable.open Unreadable.readable KwikModel fn mo s
  = open KwikModel fn mo s.
Proof.
  unfold Unreadable.open, open, Unreadable.emit, emit, bind.
  destruct (match mo with
            | Some m => ret m
            | None => match KwikModel fn with
                      | Some m => ret m
                      | None => raise IOError
                      end
            end s) as [[x|m] s1]; [reflexivity|].
  simpl. apply readable_deliver.
Qed.

(** C9 as stated fails after an [open] that raised inside [on_open].  A
    new session is handed an object without [spike_clusters]: [open]
    raises [AttributeError], and by then [on_open] has bound the history
    and nothing else.  [undo] on that session does not raise: it returns,
    and the [cluster] event is emitted and delivered to [on_cluster]. *)
Lemma C9_undo_returns_after_an_open_that_raised :
  let r := Unreadable.open Unreadable.unreadable Example.no_file None
             (Some Example.model0) Example.fresh in
  let s := snd r in
  let e := Cluster_event None (Some false) in
  fst r = inl (AttributeError "spike_clusters")
  /\ _global_history s = Some GlobalHistory.empty
  /\ clustering s = None /\ cluster_metadata s = None /\ selector s = None
  /\ run Example.no_file Undo s
     = (inr tt,
        with_trace (trace s ++ [Emitted e; Called Session_on_cluster e]) s).
Proof. repeat apply conj; reflexivity. Qed.

(** ** Opening a dataset *)

Lemma refresh_keeps (m : Model.t) (cbs : list Callback) (v : nat) :
  forall vs,
    (exists w, nth_error vs v = Some w /\ shows m w) ->
    exists w,
      nth_error
        (refresh
           (WaveformView.on_open (Model.spike_clusters m)
              (Model.cluster_metadata m) (Model.probe_positions m))
           cbs vs) v = Some w
      /\ shows m w.
Proof.
  induction cbs as [|cb r IH]; intros vs Hw; [exact Hw|].
  destruct cb as [| |u|u|u]; simpl; try now apply IH.
  apply IH. destruct Hw as [w [Hn Hs]].
  destruct (Nat.eq_dec u v) as [->|Hne].
  - rewrite update_nth_same, Hn. simpl. eexists. split; [reflexivity|].
    repeat split.
  - rewrite update_nth_other by assumption. now exists w.
Qed.

Lemma refresh_sets (m : Model.t) (cbs : list Callback) (v : nat) :
  forall vs,
    In (View_on_open v) cbs ->
    (v < length vs)%nat ->
    exists w,
      nth_error
        (refresh
           (WaveformView.on_open (Model.spike_clusters m)
              (Model.cluster_metadata m) (Model.probe_positions m))
           cbs vs) v = Some w
      /\ shows m w.
Proof.
  induction cbs as [|cb r IH]; intros vs Hin Hlt; [destruct Hin|].
  destruct Hin as [->|Hin].
  - simpl. apply refresh_keeps.
    destruct (nth_error vs v) as [w|] eqn:Hn.
    + rewrite update_nth_same, Hn. simpl. eexists. split; [reflexivity|].
      repeat split.
    + apply nth_error_None in Hn. lia.
  - destruct cb as [| |u|u|u]; simpl; try now apply IH.
    apply IH; [assumption|]. now rewrite update_nth_length.
Qed.

Lemma opened_on_substate (fn : option string) (m : Model.t)
    (vcbs : list Callback) (s : t) :
  substate (opened_on fn m vcbs s)
  = (Some GlobalHistory.empty,
     Some (Clustering.init (Model.spike_clusters m)),
     Some (Model.cluster_metadata m),
     Some (Selector.init (Model.spike_clusters m) 100)).
Proof. reflexivity. Qed.

(** C6.  Every call of [open] that gets a model binds a new history, which
    is empty, a new clustering and a new selector built from the
    assignment of that model, and the metadata of that model; what the
    session held before has no part in them. *)
Theorem C6_open_rebuilds_substate
    (KwikModel : option string -> option Model.t)
    (s : t) (fn : option string) (mo : option Model.t) (m : Model.t) :
  reachable KwikModel s ->
  loads KwikModel fn mo m ->
  let s' := after KwikModel (Open fn mo) s in
  fst (run KwikModel (Open fn mo) s) = inr tt
  /\ model s' = Some m
  /\ filename s' = fn
  /\ _global_history s' = Some GlobalHistory.empty
  /\ clustering s' = Some (Clustering.init (Model.spike_clusters m))
  /\ metadata s' = Some (Model.cluster_metadata m)
  /\ selector s' = Some (Selector.init (Model.spike_clusters m) 100)
  /\ (forall s2,
        reachable KwikModel s2 ->
        substate (after KwikModel (Open fn mo) s2) = substate s').
Proof.
  intros Hr Hload. apply reachable_inv in Hr.
  destruct (inv_cases s Hr) as [vcbs [Hcbs [Hv _]]].
  unfold after. simpl run.
  rewrite (open_ok KwikModel s vcbs fn mo m Hcbs Hv Hload).
  repeat apply conj; try reflexivity.
  intros s2 Hr2. apply reachable_inv in Hr2.
  destruct (inv_cases s2 Hr2) as [vcbs2 [Hcbs2 [Hv2 _]]].
  rewrite (open_ok KwikModel s2 vcbs2 fn mo m Hcbs2 Hv2 Hload).
  reflexivity.
Qed.

(** C6 on a session with a merge in its history that is opened again on
    the scenario's dataset. *)
Lemma C6_open_rebuilds_substate_witness :
  let s' := after Example.no_file (Open None (Some Example.model0))
              Example.merged in
  fst (run Example.no_file (Open None (Some Example.model0)) Example.merged)
  = inr tt
  /\ model s' = Some Example.model0
  /\ filename s' = None
  /\ _global_history s' = Some GlobalHistory.empty
  /\ clustering s'
     = Some (Clustering.init (Model.spike_clusters Example.model0))
  /\ metadata s' = Some (Model.cluster_metadata Example.model0)
  /\ selector s'
     = Some (Selector.init (Model.spike_clusters Example.model0) 100)
  /\ (forall s2,
        reachable Example.no_file s2 ->
        substate (after Example.no_file (Open None (Some Example.model0)) s2)
        = substate s').
Proof.
  apply (C6_open_rebuilds_substate Example.no_file Example.merged None
           (Some Example.model0) Example.model0).
  - do 2 apply reachable_step. apply reachable_init.
  - left. reflexivity.
Defined.

(** C6 as stated fails for the metadata, which [on_open] does not build:
    it binds the object that the model holds.  The scenario's dataset is
    opened and cluster 1 is moved to group 7, which changes that object;
    then the model that the session holds is opened again.  The metadata
    of the session is what it was before that second [open], cluster 1 in
    group 7, and not what it was after the first one. *)
Lemma C6_reopening_keeps_the_moved_group :
  let s := Example.moved in
  let s' := after Example.no_file (Open None (model s)) s in
  fst (run Example.no_file (Open None (model s)) s) = inr tt
  /\ clustering s' = Some (Clustering.init [1; 1; 2; 2])
  /\ _global_history s' = Some GlobalHistory.empty
  /\ metadata s' = metadata s
  /\ metadata s' <> metadata Example.opened
  /\ option_map (ClusterMetadata.group 1) (metadata Example.opened)
     = Some (Some 0)
  /\ option_map (ClusterMetadata.group 1) (metadata s') = Some (Some 7).
Proof.
  repeat apply conj; try reflexivity. discriminate.
Qed.

(** C10.  Opening again on an opened session replaces the model, the
    clustering, the selector, the metadata and the history and leaves the
    registered callbacks as they are: each callback registered for
    [open], the closures of [show_waveforms] included, is called once
    more, in registration order, and each connected view then shows the
    new dataset. *)
Theorem C10_reopen_keeps_observers
    (KwikModel : option string -> option Model.t)
    (s : t) (c : Clustering.t) (fn : option string) (mo : option Model.t)
    (m : Model.t) :
  reachable KwikModel s ->
  clustering s = Some c ->
  loads KwikModel fn mo m ->
  let s' := after KwikModel (Open fn mo) s in
  fst (run KwikModel (Open fn mo) s) = inr tt
  /\ _callbacks s' = _callbacks s
  /\ trace s' = trace s ++ Emitted Open_event :: calls (_callbacks s) Open_event
  /\ (forall cb,
        In cb (_callbacks s) -> handles cb Open_event = true ->
        In (Called cb Open_event) (calls (_callbacks s) Open_event))
  /\ (forall v,
        In (View_on_open v) (_callbacks s) ->
        exists w, nth_error (views s') v = Some w /\ shows m w)
  /\ model s' = Some m
  /\ substate s'
     = (Some GlobalHistory.empty,
        Some (Clustering.init (Model.spike_clusters m)),
        Some (Model.cluster_metadata m),
        Some (Selector.init (Model.spike_clusters m) 100)).
Proof.
  intros Hr Hc Hload. apply reachable_inv in Hr.
  destruct (inv_cases s Hr) as [vcbs [Hcbs [Hv [Hidx _]]]].
  unfold after. simpl run.
  rewrite (open_ok KwikModel s vcbs fn mo m Hcbs Hv Hload).
  repeat apply conj; try reflexivity.
  - intros cb Hin Hh. unfold calls.
    apply (in_map (fun cb => Called cb Open_event)), filter_In.
    now split.
  - intros v Hin. simpl. rewrite Hcbs in Hin.
    destruct Hin as [Hin|[Hin|Hin]]; try discriminate.
    apply refresh_sets; [assumption|].
    now apply (Hidx (View_on_open v) v).
Qed.

(** C10 on a session with a waveform view that is opened again. *)
Lemma C10_reopen_keeps_observers_witness :
  let s := Example.viewed in
  let m := Example.model0 in
  let s' := after Example.no_file (Open None (Some m)) s in
  fst (run Example.no_file (Open None (Some m)) s) = inr tt
  /\ _callbacks s' = _callbacks s
  /\ trace s' = trace s ++ Emitted Open_event :: calls (_callbacks s) Open_event
  /\ (forall cb,
        In cb (_callbacks s) -> handles cb Open_event = true ->
        In (Called cb Open_event) (calls (_callbacks s) Open_event))
  /\ (forall v,
        In (View_on_open v) (_callbacks s) ->
        exists w, nth_error (views s') v = Some w /\ shows m w)
  /\ model s' = Some m
  /\ substate s'
     = (Some GlobalHistory.empty,
        Some (Clustering.init (Model.spike_clusters m)),
        Some (Model.cluster_metadata m),
        Some (Selector.init (Model.spike_clusters m) 100)).
Proof.
  apply (C10_reopen_keeps_observers Example.no_file Example.viewed
           (Clustering.mk [3; 3; 3; 3] 4) None (Some Example.model0)
           Example.model0).
  - do 3 apply reachable_step. apply reachable_init.
  - reflexivity.
  - left. reflexivity.
Defined.

(** ** Recording and replaying *)

Lemma with_history_clustering_same (s : t)
    (h : GlobalHistory.t (list ClusterId)) (c : Clustering.t) :
  _global_history s = Some h -> clustering s = Some c ->
  with_clustering c (with_global_history h s) = s.
Proof. destruct s; simpl; now intros -> ->. Qed.

(** What a successful [merge], [split] or [move] does to a reachable
    session. *)
Lemma mutation_run (KwikModel : option string -> option Model.t)
    (s : t) (op : Op) :
  reachable KwikModel s ->
  is_mutation op = true ->
  fst (run KwikModel op s) = inr tt ->
  exists vcbs h c up c',
    let s' := after KwikModel op s in
    _callbacks s = Session_on_open :: Session_on_cluster :: vcbs
    /\ _global_history s = Some h
    /\ clustering s = Some c
    /\ opened_inv h c
    /\ clustering s' = Some c'
    /\ _global_history s' = Some (GlobalHistory.action c' h)
    /\ trace s'
       = trace s ++ recorded_trace vcbs up (Clustering.spike_clusters c').
Proof.
  intros Hr Hmut Hok. pose proof (reachable_inv _ _ Hr) as Hinv.
  destruct (inv_cases s Hinv) as [vcbs [Hcbs [Hv [_ Hst]]]].
  destruct Hst as [[m [h [c [sel [Hop Hoi]]]]]|Hun].
  - destruct Hop as [Hm [Hh [Hc [Hmd Hsel]]]]. exists vcbs, h, c.
    unfold after.
    destruct op as [fn mo|cl|cl|sp|cl g| | | |v]; try discriminate;
      simpl run in *.
    + unfold merge in *. destruct (merge_cases cl c) as [He|Hmerge].
      * rewrite (mutate_err s c Hc _ _ He) in Hok. discriminate.
      * rewrite (mutate_ok s vcbs h c Hcbs Hv Hh Hc _ _ _ Hmerge).
        exists (fst (merged cl c)), (snd (merged cl c)).
        cbv zeta. simpl. repeat apply conj; (assumption || reflexivity).
    + unfold split in *. destruct (split_cases sp c) as [He|Hsplit].
      * rewrite (mutate_err s c Hc _ _ He) in Hok. discriminate.
      * rewrite (mutate_ok s vcbs h c Hcbs Hv Hh Hc _ _ _ Hsplit).
        exists (fst (splitted sp c)), (snd (splitted sp c)).
        cbv zeta. simpl. repeat apply conj; (assumption || reflexivity).
    + rewrite (move_ok s vcbs h c Hcbs Hv Hh Hc m cl g Hm Hmd).
      exists (fst (ClusterMetadata.set_group cl g (Model.cluster_metadata m))),
             c.
      cbv zeta. simpl. repeat apply conj; (assumption || reflexivity).
  - destruct Hun as [_ [Hh [Hc [Hmd Hsel]]]].
    assert (Hneed : needs_open op = true) by (now destruct op).
    destruct (unopened_raises KwikModel s op Hh Hc Hmd Hsel Hneed)
      as [a Ha].
    rewrite Ha in Hok. discriminate.
Qed.

(** What [undo] and [redo] do to a reachable, opened session. *)
Lemma replay_run (KwikModel : option string -> option Model.t)
    (s : t) (h : GlobalHistory.t (list ClusterId)) (c : Clustering.t)
    (op : Op)
    (f : GlobalHistory.t (list ClusterId) -> Clustering.t ->
         option UpdateDescriptor * GlobalHistory.t (list ClusterId)
         * Clustering.t) :
  reachable KwikModel s ->
  _global_history s = Some h ->
  clustering s = Some c ->
  (op = Undo /\ f = GlobalHistory.undo)
  \/ (op = Redo /\ f = GlobalHistory.redo) ->
  run KwikModel op s
  = (inr tt,
     with_trace
       (trace s ++ Emitted (Cluster_event (fst (fst (f h c))) (Some false))
          :: calls (_callbacks s)
               (Cluster_event (fst (fst (f h c))) (Some false)))
       (with_clustering (snd (f h c))
          (with_global_history (snd (fst (f h c))) s))).
Proof.
  intros Hr Hh Hc Hop. pose proof (reachable_inv _ _ Hr) as Hinv.
  destruct (inv_cases s Hinv) as [vcbs [Hcbs [Hv _]]].
  destruct (f h c) as [[up h'] c'] eqn:Hf.
  destruct Hop as [[-> ->]|[-> ->]]; simpl run.
  - unfold undo. now rewrite (replay_ok s vcbs h c Hcbs Hv Hh Hc _ _ _ _ Hf).
  - unfold redo. now rewrite (replay_ok s vcbs h c Hcbs Hv Hh Hc _ _ _ _ Hf).
Qed.

Lemma undo_nothing {T S : Type} `{Capture T S}
    (h : GlobalHistory.t S) (target : T) :
  (length (GlobalHistory.undo_stack h) <= 1)%nat ->
  GlobalHistory.undo h target = (None, h, target).
Proof.
  unfold GlobalHistory.undo.
  destruct (GlobalHistory.undo_stack h) as [|a [|b r]]; simpl;
    [reflexivity|reflexivity|lia].
Qed.

Lemma redo_nothing {T S : Type} `{Capture T S}
    (h : GlobalHistory.t S) (target : T) :
  GlobalHistory.redo_stack h = [] ->
  GlobalHistory.redo h target = (None, h, target).
Proof.
  unfold GlobalHistory.redo. now intros ->.
Qed.

(** A replay with nothing to replay changes the trace only. *)
Lemma replay_nothing (KwikModel : option string -> option Model.t)
    (s : t) (h : GlobalHistory.t (list ClusterId)) (op : Op) :
  reachable KwikModel s ->
  _global_history s = Some h ->
  (op = Undo /\ (length (GlobalHistory.undo_stack h) <= 1)%nat)
  \/ (op = Redo /\ GlobalHistory.redo_stack h = []) ->
  run KwikModel op s
  = (inr tt,
     with_trace
       (trace s ++ Emitted (Cluster_event None (Some false))
          :: calls (_callbacks s) (Cluster_event None (Some false))) s).
Proof.
  intros Hr Hh Hop. pose proof (reachable_inv _ _ Hr) as Hinv.
  destruct (inv_cases s Hinv) as [vcbs [Hcbs [Hv [_ Hst]]]].
  destruct Hst as [[m [h0 [c [sel [Hopen Hoi]]]]]|Hun].
  - destruct Hopen as [_ [Hh0 [Hc _]]].
    assert (h0 = h) as -> by congruence.
    destruct Hop as [[-> Hlen]|[-> Hnil]].
    + rewrite (replay_run KwikModel s h c Undo GlobalHistory.undo)
        by (auto || assumption).
      rewrite undo_nothing by assumption. simpl.
      now rewrite with_history_clustering_same.
    + rewrite (replay_run KwikModel s h c Redo GlobalHistory.redo)
        by (auto || assumption).
      rewrite redo_nothing by assumption. simpl.
      now rewrite with_history_clustering_same.
  - destruct Hun as [_ [Hh0 _]]. congruence.
Qed.

Lemma replay_nothing_iter (KwikModel : option string -> option Model.t)
    (s : t) (h : GlobalHistory.t (list ClusterId)) (op : Op) (n : nat) :
  reachable KwikModel s ->
  _global_history s = Some h ->
  (op = Undo /\ (length (GlobalHistory.undo_stack h) <= 1)%nat)
  \/ (op = Redo /\ GlobalHistory.redo_stack h = []) ->
  let s' := Nat.iter n (after KwikModel op) s in
  reachable KwikModel s'
  /\ _global_history s' = Some h
  /\ clustering s' = clustering s.
Proof.
  intros Hr Hh Hop. induction n as [|n [IHr [IHh IHc]]]; simpl.
  - now repeat split.
  - split; [now apply reachable_step|].
    unfold after at 1 3.
    rewrite (replay_nothing KwikModel _ h op IHr IHh Hop). simpl.
    now split.
Qed.

(** C7.  With at most one entry on the undo stack, [undo] raises nothing,
    hands the nothing-to-undo marker to the [cluster] event, and leaves
    the assignment and both stacks of the history as they are, however
    often it is called; so does [redo] with an empty redo stack. *)
Theorem C7_nothing_to_replay_is_a_no_op
    (KwikModel : option string -> option Model.t)
    (s : t) (h : GlobalHistory.t (list ClusterId)) :
  reachable KwikModel s ->
  _global_history s = Some h ->
  ((length (GlobalHistory.undo_stack h) <= 1)%nat ->
   forall n,
     let s' := Nat.iter n (after KwikModel Undo) s in
     fst (run KwikModel Undo s') = inr tt
     /\ trace (after KwikModel Undo s')
        = trace s' ++ Emitted (Cluster_event None (Some false))
            :: calls (_callbacks s') (Cluster_event None (Some false))
     /\ clustering (after KwikModel Undo s') = clustering s
     /\ _global_history (after KwikModel Undo s') = Some h)
  /\ (GlobalHistory.redo_stack h = [] ->
      forall n,
        let s' := Nat.iter n (after KwikModel Redo) s in
        fst (run KwikModel Redo s') = inr tt
        /\ trace (after KwikModel Redo s')
           = trace s' ++ Emitted (Cluster_event None (Some false))
               :: calls (_callbacks s') (Cluster_event None (Some false))
        /\ clustering (after KwikModel Redo s') = clustering s
        /\ _global_history (after KwikModel Redo s') = Some h).
Proof.
  intros Hr Hh. split.
  - intros Hlen n.
    destruct (replay_nothing_iter KwikModel s h Undo n Hr Hh)
      as [Hr' [Hh' Hc']]; [now left|].
    cbv zeta in *.
    set (s' := Nat.iter n (after KwikModel Undo) s) in *.
    pose proof (replay_nothing KwikModel s' h Undo Hr' Hh') as Hrun.
    unfold after. rewrite Hrun by now left.
    now repeat split.
  - intros Hnil n.
    destruct (replay_nothing_iter KwikModel s h Redo n Hr Hh)
      as [Hr' [Hh' Hc']]; [now right|].
    cbv zeta in *.
    set (s' := Nat.iter n (after KwikModel Redo) s) in *.
    pose proof (replay_nothing KwikModel s' h Redo Hr' Hh') as Hrun.
    unfold after. rewrite Hrun by now right.
    now repeat split.
Qed.

(** C7 right after [open]: both stacks are empty; [undo] and [redo] are
    called three times and once more. *)
Lemma C7_nothing_to_replay_is_a_no_op_witness :
  let s := Example.opened in
  let h : GlobalHistory.t (list ClusterId) := GlobalHistory.empty in
  (let s' := Nat.iter 3 (after Example.no_file Undo) s in
   fst (run Example.no_file Undo s') = inr tt
   /\ trace (after Example.no_file Undo s')
      = trace s' ++ Emitted (Cluster_event None (Some false))
          :: calls (_callbacks s') (Cluster_event None (Some false))
   /\ clustering (after Example.no_file Undo s') = clustering s
   /\ _global_history (after Example.no_file Undo s') = Some h)
  /\ (let s' := Nat.iter 3 (after Example.no_file Redo) s in
      fst (run Example.no_file Redo s') = inr tt
      /\ trace (after Example.no_file Redo s')
         = trace s' ++ Emitted (Cluster_event None (Some false))
             :: calls (_callbacks s') (Cluster_event None (Some false))
      /\ clustering (after Example.no_file Redo s') = clustering s
      /\ _global_history (after Example.no_file Redo s') = Some h).
Proof.
  destruct (C7_nothing_to_replay_is_a_no_op Example.no_file Example.opened
              GlobalHistory.empty) as [Hundo Hredo].
  - apply reachable_step, reachable_init.
  - reflexivity.
  - split.
    + apply Hundo. simpl. lia.
    + apply Hredo. reflexivity.
Defined.

(** C3.  Each successful [merge], [split] or [move] makes the session's
    [on_cluster] call [GlobalHistory.action] exactly once, on the
    clustering as it is after the mutation: the undo stack grows by that
    snapshot and the redo stack is cleared.  [undo] and [redo] emit the
    [cluster] event with [add_to_stack=False], and [action] is not
    called. *)
Theorem C3_one_recording_per_mutation
    (KwikModel : option string -> option Model.t) (s : t) :
  reachable KwikModel s ->
  (forall op,
     is_mutation op = true ->
     fst (run KwikModel op s) = inr tt ->
     let s' := after KwikModel op s in
     exists vcbs h c' up,
       _callbacks s = Session_on_open :: Session_on_cluster :: vcbs
       /\ _global_history s = Some h
       /\ clustering s' = Some c'
       /\ trace s'
          = trace s ++ recorded_trace vcbs up (Clustering.spike_clusters c')
       /\ count_recorded (trace s') = S (count_recorded (trace s))
       /\ _global_history s'
          = Some (GlobalHistory.mk
                    (Clustering.spike_clusters c'
                       :: GlobalHistory.undo_stack h) []))
  /\ (forall op,
        op = Undo \/ op = Redo ->
        fst (run KwikModel op s) = inr tt ->
        let s' := after KwikModel op s in
        exists up,
          trace s'
          = trace s ++ Emitted (Cluster_event up (Some false))
              :: calls (_callbacks s) (Cluster_event up (Some false))
          /\ count_recorded (trace s') = count_recorded (trace s)).
Proof.
  intros Hr. split.
  - intros op Hmut Hok.
    destruct (mutation_run KwikModel s op Hr Hmut Hok)
      as [vcbs [h [c [up [c' [Hcbs [Hh [Hc [Hoi [Hc' [Hh' Htr]]]]]]]]]]].
    exists vcbs, h, c', up. cbv zeta in *. repeat apply conj; try assumption.
    rewrite Htr, count_recorded_app. unfold recorded_trace. simpl.
    rewrite count_recorded_calls. lia.
  - intros op Hop Hok. pose proof (reachable_inv _ _ Hr) as Hinv.
    destruct (inv_cases s Hinv) as [vcbs [Hcbs [Hv [_ Hst]]]].
    destruct Hst as [[m [h [c [sel [Hopen Hoi]]]]]|Hun].
    + destruct Hopen as [_ [Hh [Hc _]]]. cbv zeta. unfold after.
      destruct Hop as [->| ->].
      * rewrite (replay_run KwikModel s h c Undo GlobalHistory.undo)
          by (auto || assumption).
        eexists. split; [reflexivity|]. simpl.
        rewrite count_recorded_app. simpl.
        rewrite count_recorded_calls. lia.
      * rewrite (replay_run KwikModel s h c Redo GlobalHistory.redo)
          by (auto || assumption).
        eexists. split; [reflexivity|]. simpl.
        rewrite count_recorded_app. simpl.
        rewrite count_recorded_calls. lia.
    + destruct Hun as [_ [Hh [Hc [Hmd Hsel]]]].
      assert (Hneed : needs_open op = true) by (now destruct Hop as [->| ->]).
      destruct (unopened_raises KwikModel s op Hh Hc Hmd Hsel Hneed)
        as [a Ha].
      rewrite Ha in Hok. discriminate.
Qed.

(** C3 on the scenario: the merge of clusters 1 and 2 is recorded once;
    an undo after it records nothing. *)
Lemma C3_one_recording_per_mutation_witness :
  (let s := Example.opened in
   let s' := after Example.no_file (Merge [1; 2]) s in
   exists vcbs h c' up,
     _callbacks s = Session_on_open :: Session_on_cluster :: vcbs
     /\ _global_history s = Some h
     /\ clustering s' = Some c'
     /\ trace s'
        = trace s ++ recorded_trace vcbs up (Clustering.spike_clusters c')
     /\ count_recorded (trace s') = S (count_recorded (trace s))
     /\ _global_history s'
        = Some (GlobalHistory.mk
                  (Clustering.spike_clusters c'
                     :: GlobalHistory.undo_stack h) []))
  /\ (let s := Example.merged in
      let s' := after Example.no_file Undo s in
      exists up,
        trace s'
        = trace s ++ Emitted (Cluster_event up (Some false))
            :: calls (_callbacks s) (Cluster_event up (Some false))
        /\ count_recorded (trace s') = count_recorded (trace s)).
Proof.
  split.
  - apply (C3_one_recording_per_mutation Example.no_file Example.opened).
    + apply reachable_step, reachable_init.
    + reflexivity.
    + reflexivity.
  - apply (C3_one_recording_per_mutation Example.no_file Example.merged).
    + do 2 apply reachable_step. apply reachable_init.
    + left. reflexivity.
    + reflexivity.
Defined.

(** ** Moving clusters to a group *)

Lemma set_group_group (clusters : list ClusterId) (g : Group)
    (m : ClusterMetadata.t) (x : ClusterId) :
  In x clusters ->
  ClusterMetadata.group x (snd (ClusterMetadata.set_group clusters g m))
  = Some g.
Proof.
  simpl. induction clusters as [|y r IH]; intros Hin; [destruct Hin|].
  simpl. destruct (Z.eqb_spec y x) as [_|Hne]; [reflexivity|].
  apply IH. destruct Hin; [contradiction|assumption].
Qed.

(** C5, as the code has it.  [move] is applied to the cluster metadata by
    [set_group] and leaves the clustering as it is; the session's
    [on_cluster] records the clustering, once, into the history; the
    [cluster] event carrying the descriptor of [set_group] reaches every
    observer. *)
Theorem C5_move_sets_groups_and_records_clustering
    (KwikModel : option string -> option Model.t)
    (s : t) (m : Model.t) (h : GlobalHistory.t (list ClusterId))
    (c : Clustering.t) (clusters : list ClusterId) (g : Group) :
  reachable KwikModel s ->
  model s = Some m ->
  _global_history s = Some h ->
  clustering s = Some c ->
  let r := ClusterMetadata.set_group clusters g (Model.cluster_metadata m) in
  let s' := after KwikModel (Move clusters g) s in
  fst (run KwikModel (Move clusters g) s) = inr tt
  /\ metadata s' = Some (snd r)
  /\ (forall x, In x clusters -> ClusterMetadata.group x (snd r) = Some g)
  /\ clustering s' = Some c
  /\ _global_history s' = Some (GlobalHistory.action c h)
  /\ exists vcbs,
       _callbacks s = Session_on_open :: Session_on_cluster :: vcbs
       /\ trace s'
          = trace s
            ++ recorded_trace vcbs (fst r) (Clustering.spike_clusters c).
Proof.
  intros Hr Hm Hh Hc.
  destruct (reachable_opened _ _ _ Hr Hc)
    as [vcbs [m0 [h0 [sel [Hcbs [Hv [Hop Hoi]]]]]]].
  destruct Hop as [_ [_ [_ [Hmd _]]]].
  cbv zeta. unfold after. simpl run.
  rewrite (move_ok s vcbs h c Hcbs Hv Hh Hc m clusters g Hm Hmd).
  repeat apply conj; try reflexivity.
  - unfold metadata. simpl. now rewrite Hmd.
  - intros x Hx. now apply set_group_group.
  - exact Hc.
  - now exists vcbs.
Qed.

(** C5 on the scenario's dataset: cluster 2 is moved to group 9. *)
Lemma C5_move_sets_groups_and_records_clustering_witness :
  let s := Example.moved in
  let m := Model.mk [1; 1; 2; 2] [(1, 7); (1, 0); (2, 0)]
             [10; 11; 12; 13] [0; 0; 0; 0] [] in
  let h := GlobalHistory.mk [[1; 1; 2; 2]] [] in
  let c := Clustering.mk [1; 1; 2; 2] 3 in
  let r := ClusterMetadata.set_group [2] 9 (Model.cluster_metadata m) in
  let s' := after Example.no_file (Move [2] 9) s in
  fst (run Example.no_file (Move [2] 9) s) = inr tt
  /\ metadata s' = Some (snd r)
  /\ (forall x, In x [2] -> ClusterMetadata.group x (snd r) = Some 9)
  /\ clustering s' = Some c
  /\ _global_history s' = Some (GlobalHistory.action c h)
  /\ exists vcbs,
       _callbacks s = Session_on_open :: Session_on_cluster :: vcbs
       /\ trace s'
          = trace s
            ++ recorded_trace vcbs (fst r) (Clustering.spike_clusters c).
Proof.
  apply (C5_move_sets_groups_and_records_clustering Example.no_file
           Example.moved
           (Model.mk [1; 1; 2; 2] [(1, 7); (1, 0); (2, 0)]
              [10; 11; 12; 13] [0; 0; 0; 0] [])
           (GlobalHistory.mk [[1; 1; 2; 2]] [])
           (Clustering.mk [1; 1; 2; 2] 3) [2] 9).
  - do 2 apply reachable_step. apply reachable_init.
  - reflexivity.
  - reflexivity.
  - reflexivity.
Defined.

(** C5 as stated fails: a move is not applied to the clustering, and an
    undo after it does not bring the group back.  With one entry already
    on the stack, cluster 2 goes from group 0 to group 9; [undo] pops the
    entry of the move and the group is still 9. *)
Lemma C5_undo_does_not_restore_the_group :
  fst (run Example.no_file (Move [2] 9) Example.moved) = inr tt
  /\ clustering (after Example.no_file (Move [2] 9) Example.moved)
     = clustering Example.moved
  /\ option_map (ClusterMetadata.group 2) (metadata Example.moved)
     = Some (Some 0)
  /\ fst (run Example.no_file Undo
            (after Example.no_file (Move [2] 9) Example.moved)) = inr tt
  /\ option_map (ClusterMetadata.group 2)
       (metadata
          (after Example.no_file Undo
             (after Example.no_file (Move [2] 9) Example.moved)))
     = Some (Some 9)
  /\ metadata
       (after Example.no_file Undo
          (after Example.no_file (Move [2] 9) Example.moved))
     <> metadata Example.moved.
Proof.
  repeat apply conj; try reflexivity. vm_compute. discriminate.
Qed.

(** * Further properties of the session *)

Import ViewNotions.

(** ** Waveform views *)

Lemma update_nth_app_last (vs : list WaveformView.t) (w : WaveformView.t)
    (f : WaveformView.t -> WaveformView.t) :
  update_nth (length vs) f (vs ++ [w]) = vs ++ [f w].
Proof.
  induction vs as [|x r IH]; simpl; [reflexivity|]. now rewrite IH.
Qed.

(** The session in which [show_waveforms] has made, connected and shown
    its view. *)
Lemma show_waveforms_unfold (s : t) :
  let v := length (views s) in
  show_waveforms s
  = (view_on_open v ;;; view_on_select v ;;; ret v)
      (with_views
         (views s ++ [WaveformView.show
                        (WaveformView.init (backend_is_qt (_backend s)))])
         (with_callbacks (_callbacks s ++ closures v) s)).
Proof.
  intros v. unfold show_waveforms.
  unfold bind at 1. unfold gets at 1.
  unfold bind at 1. unfold gets at 1.
  unfold bind at 1. unfold modify at 1.
  unfold bind at 1. unfold modify at 1.
  unfold bind at 1. unfold modify at 1.
  unfold bind at 1. unfold modify at 1.
  unfold bind at 1. unfold update_view, modify.
  fold v. f_equal. unfold connect, closures. simpl.
  unfold v. rewrite update_nth_app_last.
  rewrite <- !app_assoc. reflexivity.
Qed.

(** X3.  [show_waveforms] on a session that is not opened raises
    [AttributeError] for the selector, from the closure [on_select] that
    it calls at its end; by then the view is made and shown and its three
    closures are connected, and they stay connected. *)
Theorem X3_show_waveforms_before_open (s : t) :
  model s = None ->
  selector s = None ->
  let v := length (views s) in
  show_waveforms s
  = (inl (AttributeError "selector"),
     with_views
       (views s ++ [WaveformView.show
                      (WaveformView.init (backend_is_qt (_backend s)))])
       (with_callbacks (_callbacks s ++ closures v) s)).
Proof.
  intros Hm Hsel v. unfold v. rewrite show_waveforms_unfold.
  cbv [bind view_on_open view_on_select gets getattr ret].
  simpl. rewrite Hm. simpl. now rewrite Hsel.
Qed.

(** X3 on a new session. *)
Lemma X3_show_waveforms_before_open_witness :
  let s := Example.fresh in
  show_waveforms s
  = (inl (AttributeError "selector"),
     with_views
       (views s ++ [WaveformView.show
                      (WaveformView.init (backend_is_qt (_backend s)))])
       (with_callbacks (_callbacks s ++ closures (length (views s))) s)).
Proof.
  apply (X3_show_waveforms_before_open Example.fresh); reflexivity.
Defined.

(** Opening refreshes every view whose [on_open] closure is connected. *)
Lemma open_refreshes_views (KwikModel : option string -> option Model.t)
    (s : t) (fn : option string) (mo : option Model.t) (m : Model.t)
    (v : nat) :
  reachable KwikModel s ->
  loads KwikModel fn mo m ->
  In (View_on_open v) (_callbacks s) ->
  fst (run KwikModel (Open fn mo) s) = inr tt
  /\ exists w,
       nth_error (views (after KwikModel (Open fn mo) s)) v = Some w
       /\ shows m w.
Proof.
  intros Hr Hload Hin. apply reachable_inv in Hr.
  destruct (inv_cases s Hr) as [vcbs [Hcbs [Hv [Hidx _]]]].
  unfold after. simpl run.
  rewrite (open_ok KwikModel s vcbs fn mo m Hcbs Hv Hload).
  split; [reflexivity|]. simpl. rewrite Hcbs in Hin.
  destruct Hin as [Hin|[Hin|Hin]]; try discriminate.
  apply refresh_sets; [assumption|].
  now apply (Hidx (View_on_open v) v).
Qed.

(** X4.  A waveform view that was asked for before any dataset was
    opened is not lost: [show_waveforms] raised, but its closures are
    connected, and the first [open] that gets a model fills the view with
    the assignment, the metadata and the channel positions of that
    model. *)
Theorem X4_view_made_before_open_is_filled_by_open
    (KwikModel : option string -> option Model.t)
    (s : t) (fn : option string) (mo : option Model.t) (m : Model.t) :
  reachable KwikModel s ->
  model s = None ->
  loads KwikModel fn mo m ->
  let v := length (views s) in
  let s1 := after KwikModel Show_waveforms s in
  let s2 := after KwikModel (Open fn mo) s1 in
  fst (run KwikModel Show_waveforms s) = inl (AttributeError "selector")
  /\ fst (run KwikModel (Open fn mo) s1) = inr tt
  /\ exists w, nth_error (views s2) v = Some w /\ shows m w.
Proof.
  intros Hr Hm Hload v s1 s2.
  assert (Hsel : selector s = None).
  { pose proof (reachable_inv _ _ Hr) as Hinv.
    destruct (inv_cases s Hinv) as [_ [_ [_ [_ Hst]]]].
    destruct Hst as [[m0 [h [c [sel [Hop _]]]]]|Hun].
    - destruct Hop as [Hm0 _]. congruence.
    - now destruct Hun as [_ [_ [_ [_ Hsel]]]]. }
  assert (Hshow : run KwikModel Show_waveforms s
                  = (inl (AttributeError "selector"),
                     with_views
                       (views s
                        ++ [WaveformView.show
                              (WaveformView.init
                                 (backend_is_qt (_backend s)))])
                       (with_callbacks (_callbacks s ++ closures v) s))).
  { simpl run. unfold bind at 1. rewrite show_waveforms_unfold.
    cbv [bind view_on_open view_on_select gets getattr ret].
    simpl. rewrite Hm. simpl. now rewrite Hsel. }
  split; [now rewrite Hshow|].
  assert (Hr1 : reachable KwikModel s1) by now apply reachable_step.
  apply (open_refreshes_views KwikModel s1 fn mo m v Hr1 Hload).
  unfold s1, after. rewrite Hshow. simpl.
  apply in_or_app. right. now left.
Qed.

(** X4 on a new session: the view is asked for, then the scenario's
    dataset is opened. *)
Lemma X4_view_made_before_open_is_filled_by_open_witness :
  let s := Example.fresh in
  let m := Example.model0 in
  let s1 := after Example.no_file Show_waveforms s in
  let s2 := after Example.no_file (Open None (Some m)) s1 in
  fst (run Example.no_file Show_waveforms s)
  = inl (AttributeError "selector")
  /\ fst (run Example.no_file (Open None (Some m)) s1) = inr tt
  /\ exists w, nth_error (views s2) (length (views s)) = Some w
               /\ shows m w.
Proof.
  apply (X4_view_made_before_open_is_filled_by_open Example.no_file
           Example.fresh None (Some Example.model0) Example.model0).
  - apply reachable_init.
  - reflexivity.
  - left. reflexivity.
Defined.

Lemma in_closures (cb : Callback) (v : nat) :
  existsb (Callback_eqb cb) (closures v) = true <-> view_of cb = Some v.
Proof.
  destruct cb as [| |u|u|u]; simpl; rewrite ?orb_false_r;
    try (split; discriminate);
    rewrite Nat.eqb_eq; split; congruence.
Qed.

Lemma filter_keeps_all {A : Type} (p : A -> bool) (l : list A) :
  (forall x, In x l -> p x = true) -> filter p l = l.
Proof.
  induction l as [|x r IH]; intros Hall; [reflexivity|]. simpl.
  rewrite (Hall x) by now left. f_equal. apply IH.
  intros y Hy. apply Hall. now right.
Qed.

(** The callbacks after [show_waveforms], whether it returned or
    raised. *)
Lemma show_waveforms_callbacks (s : t) :
  _callbacks (snd (show_waveforms s))
  = _callbacks s ++ closures (length (views s)).
Proof.
  pose proof (show_waveforms_core s) as Hcore. simpl in Hcore.
  unfold core in Hcore. injection Hcore as _ _ _ _ E _ _ _ _ _.
  rewrite E. simpl. unfold closures. now rewrite <- !app_assoc.
Qed.

(** X5.  Closing the view that [show_waveforms] has just made puts the
    callback registry back exactly as it was before [show_waveforms]:
    [on_close] unconnects the three closures of that view and no other
    callback. *)
Theorem X5_closing_a_view_restores_the_callbacks
    (KwikModel : option string -> option Model.t) (s : t) :
  reachable KwikModel s ->
  let v := length (views s) in
  _callbacks (after KwikModel (Close_view v)
                (after KwikModel Show_waveforms s))
  = _callbacks s.
Proof.
  intros Hr v. apply reachable_inv in Hr.
  destruct (inv_cases s Hr) as [vcbs [Hcbs [Hv [Hidx _]]]].
  unfold after at 1. simpl run. unfold close_view, modify, unconnect.
  simpl. fold (closures v).
  replace (_callbacks (after KwikModel Show_waveforms s))
    with (_callbacks s ++ closures v).
  2: { unfold after. simpl run. rewrite snd_bind_ret.
       now rewrite show_waveforms_callbacks. }
  rewrite filter_app.
  rewrite (filter_keeps_all _ (_callbacks s)).
  - replace (filter _ (closures v)) with (@nil Callback);
      [now rewrite app_nil_r|].
    unfold closures. simpl. now rewrite !Nat.eqb_refl.
  - intros cb Hin. apply negb_true_iff, not_true_iff_false.
    intros Hview. apply (proj1 (in_closures cb v)) in Hview.
    rewrite Hcbs in Hin.
    destruct Hin as [<-|[<-|Hin]]; try discriminate.
    specialize (Hidx cb v Hin Hview). unfold v in Hidx. lia.
Qed.

(** X5 on a session that already has a view. *)
Lemma X5_closing_a_view_restores_the_callbacks_witness :
  let s := Example.viewed in
  _callbacks (after Example.no_file (Close_view (length (views s)))
                (after Example.no_file Show_waveforms s))
  = _callbacks s.
Proof.
  apply (X5_closing_a_view_restores_the_callbacks Example.no_file).
  do 3 apply reachable_step. apply reachable_init.
Defined.

(** ** A closed view is not called again *)

Section Keeps.

Variable v : nat.

Lemma quiet_nil : quiet v [].
Proof. intros cb e []. Qed.

Lemma quiet_app (tr1 tr2 : list TraceItem) :
  quiet v tr1 -> quiet v tr2 -> quiet v (tr1 ++ tr2).
Proof.
  intros H1 H2 cb e Hin. apply in_app_or in Hin.
  destruct Hin; [now apply (H1 cb e)|now apply (H2 cb e)].
Qed.

(** A step that neither registers a callback, nor removes a view, nor
    writes the trace. *)
Lemma keeps_same {A : Type} (x : M A) :
  (forall s, _callbacks (snd (x s)) = _callbacks s
             /\ length (views (snd (x s))) = length (views s)
             /\ trace (snd (x s)) = trace s) ->
  keeps v x.
Proof.
  intros Hx s [Hd Hlt]. destruct (Hx s) as [Hcbs [Hlen Htr]].
  split.
  - split; [unfold detached; now rewrite Hcbs|now rewrite Hlen].
  - exists []. rewrite app_nil_r. split; [assumption|apply quiet_nil].
Qed.

Lemma keeps_ret {A : Type} (a : A) : keeps v (ret a).
Proof. now apply keeps_same. Qed.

Lemma keeps_raise {A : Type} (e : Exn) : keeps v (@raise A e).
Proof. now apply keeps_same. Qed.

Lemma keeps_gets {A : Type} (f : t -> A) : keeps v (gets f).
Proof. now apply keeps_same. Qed.

Lemma keeps_getattr {A : Type} (name : string) (f : t -> option A) :
  keeps v (getattr name f).
Proof.
  apply keeps_same. intros s. unfold getattr. now destruct (f s).
Qed.

Lemma keeps_modify (f : t -> t) :
  (forall s, _callbacks (f s) = _callbacks s
             /\ length (views (f s)) = length (views s)
             /\ trace (f s) = trace s) ->
  keeps v (modify f).
Proof. intros Hf. apply keeps_same. exact Hf. Qed.

Lemma keeps_bind {A B : Type} (x : M A) (k : A -> M B) :
  keeps v x -> (forall a, keeps v (k a)) -> keeps v (bind x k).
Proof.
  intros Hx Hk s Hcl. unfold bind.
  destruct (Hx s Hcl) as [Hcl1 [tr1 [Htr1 Hq1]]].
  destruct (x s) as [[e|a] s1]; simpl in *.
  - split; [assumption|]. now exists tr1.
  - destruct (Hk a s1 Hcl1) as [Hcl2 [tr2 [Htr2 Hq2]]].
    split; [assumption|]. exists (tr1 ++ tr2). split.
    + now rewrite Htr2, Htr1, app_assoc.
    + now apply quiet_app.
Qed.

(** An entry of the trace that is not the call of a closure of [v]. *)
Lemma keeps_log (i : TraceItem) :
  (forall cb e, i = Called cb e -> view_of cb <> Some v) ->
  keeps v (log i).
Proof.
  intros Hi s Hcl. split; [exact Hcl|].
  exists [i]. split; [reflexivity|].
  intros cb e [Heq|[]]. now apply (Hi cb e).
Qed.

Lemma keeps_update_view (u : nat) (f : WaveformView.t -> WaveformView.t) :
  keeps v (update_view u f).
Proof.
  apply keeps_modify. intros s. simpl.
  now rewrite update_nth_length.
Qed.

Lemma keeps_view_on_open (u : nat) : keeps v (view_on_open u).
Proof.
  unfold view_on_open.
  apply keeps_bind; [apply keeps_gets|]. intros [m|]; [|apply keeps_ret].
  apply keeps_bind; [apply keeps_getattr|]. intros c.
  apply keeps_bind; [apply keeps_getattr|]. intros md.
  apply keeps_update_view.
Qed.

Lemma keeps_index (a : list Z) (idx : list nat) : keeps v (index a idx).
Proof.
  unfold index. destruct (take_rows a idx);
    [apply keeps_ret|apply keeps_raise].
Qed.

Lemma keeps_view_on_select (u : nat) : keeps v (view_on_select u).
Proof.
  unfold view_on_select.
  apply keeps_bind; [apply keeps_getattr|]. intros sel.
  destruct (length (Selector.selected_spikes sel) =? 0)%nat;
    [apply keeps_ret|].
  apply keeps_bind; [apply keeps_getattr|]. intros m.
  apply keeps_bind; [apply keeps_index|]. intros w.
  apply keeps_bind; [apply keeps_update_view|]. intros _.
  apply keeps_bind; [apply keeps_getattr|]. intros m'.
  apply keeps_bind; [apply keeps_index|]. intros k.
  apply keeps_bind; [apply keeps_update_view|]. intros _.
  apply keeps_bind; [apply keeps_update_view|]. intros _.
  apply keeps_update_view.
Qed.

Lemma keeps_on_open : keeps v on_open.
Proof.
  unfold on_open.
  apply keeps_bind; [apply keeps_modify; now repeat split|]. intros _.
  apply keeps_bind; [apply keeps_getattr|]. intros m.
  apply keeps_bind; [apply keeps_modify; now repeat split|]. intros _.
  apply keeps_bind; [apply keeps_modify; now repeat split|]. intros _.
  apply keeps_modify. now repeat split.
Qed.

Lemma keeps_on_cluster (up : option UpdateDescriptor) (b : bool) :
  keeps v (on_cluster up b).
Proof.
  unfold on_cluster. destruct b; [|apply keeps_ret].
  apply keeps_bind; [apply keeps_getattr|]. intros h.
  apply keeps_bind; [apply keeps_getattr|]. intros c.
  apply keeps_bind; [apply keeps_modify; now repeat split|]. intros _.
  apply keeps_log. discriminate.
Qed.

Lemma keeps_run_callback (cb : Callback) (e : Event) :
  keeps v (run_callback cb e).
Proof.
  destruct cb as [| |u|u|u]; destruct e as [| |up [b|]];
    cbn [run_callback];
    first [ apply keeps_on_open
          | apply keeps_on_cluster
          | apply keeps_view_on_open
          | apply keeps_view_on_select
          | apply keeps_ret ].
Qed.

(** Only the callbacks of the registry are called. *)
Lemma keeps_deliver (cbs : list Callback) (e : Event) :
  (forall cb, In cb cbs -> view_of cb <> Some v) ->
  keeps v (deliver cbs e).
Proof.
  induction cbs as [|cb r IH]; intros Hall; [apply keeps_ret|].
  simpl. apply keeps_bind.
  - destruct (handles cb e); [|apply keeps_ret].
    apply keeps_bind.
    + apply keeps_log. intros cb' e' Heq. injection Heq as <- _.
      apply Hall. now left.
    + intros _. apply keeps_run_callback.
  - intros _. apply IH. intros cb' Hin. apply Hall. now right.
Qed.

Lemma keeps_emit (e : Event) : keeps v (emit e).
Proof.
  intros s Hcl. unfold emit.
  apply (keeps_bind (log (Emitted e))
           (fun _ => cbs <- gets _callbacks ;; deliver cbs e));
    [apply keeps_log; discriminate| |exact Hcl].
  intros _ s1 Hcl1. unfold bind, gets.
  apply (keeps_deliver (_callbacks s1) e (proj1 Hcl1) s1 Hcl1).
Qed.

Lemma keeps_on_clustering
    (f : Clustering.t -> (Exn + UpdateDescriptor) * Clustering.t) :
  keeps v (on_clustering f).
Proof.
  unfold on_clustering.
  apply keeps_bind; [apply keeps_getattr|]. intros c.
  destruct (f c) as [r c'].
  apply keeps_bind; [apply keeps_modify; now repeat split|]. intros _.
  destruct r; [apply keeps_raise|apply keeps_ret].
Qed.

Lemma keeps_on_history
    (f : GlobalHistory.t (list ClusterId) -> Clustering.t ->
         option UpdateDescriptor * GlobalHistory.t (list ClusterId)
         * Clustering.t) :
  keeps v (on_history f).
Proof.
  unfold on_history.
  apply keeps_bind; [apply keeps_getattr|]. intros h.
  apply keeps_bind; [apply keeps_gets|]. intros [c|]; [|apply keeps_ret].
  destruct (f h c) as [[up h'] c'].
  apply keeps_bind; [apply keeps_modify; now repeat split|]. intros _.
  apply keeps_bind; [apply keeps_modify; now repeat split|]. intros _.
  apply keeps_ret.
Qed.

Lemma keeps_set_metadata (md : ClusterMetadata.t) :
  keeps v (set_metadata md).
Proof.
  apply keeps_modify. intros s. now destruct (model s).
Qed.

(** A new view gets a number of its own: its closures are not those of
    [v]. *)
Lemma keeps_show_waveforms : keeps v show_waveforms.
Proof.
  intros s Hcl. destruct Hcl as [Hd Hlt].
  unfold show_waveforms.
  set (rest := fun u : nat =>
    update_view u WaveformView.show ;;;
    view_on_open u ;;; view_on_select u ;;; ret u).
  assert (Hrest : forall u, keeps v (rest u)).
  { intros u. unfold rest.
    apply keeps_bind; [apply keeps_update_view|]. intros _.
    apply keeps_bind; [apply keeps_view_on_open|]. intros _.
    apply keeps_bind; [apply keeps_view_on_select|]. intros _.
    apply keeps_ret. }
  set (u := length (views s)).
  set (s0 := connect (View_on_select u)
               (connect (View_on_cluster u)
                  (connect (View_on_open u)
                     (with_views
                        (views s
                         ++ [WaveformView.init (backend_is_qt (_backend s))])
                        s)))).
  assert (Hcl0 : closed v s0).
  { split.
    - intros cb Hin. unfold s0 in Hin. simpl in Hin.
      rewrite <- !app_assoc in Hin. apply in_app_or in Hin.
      destruct Hin as [Hin|Hin]; [now apply Hd|].
      simpl in Hin.
      destruct Hin as [<-|[<-|[<-|[]]]]; simpl; intros Hv;
        injection Hv as Hv; unfold u in Hv; lia.
    - unfold s0. simpl. rewrite length_app. simpl. lia. }
  change (show_waveforms s) with (rest u s0).
  destruct (Hrest u s0 Hcl0) as [Hcl1 [tr [Htr Hq]]].
  split; [exact Hcl1|]. exists tr. split; assumption.
Qed.

Lemma keeps_close_view (u : nat) : keeps v (close_view u).
Proof.
  intros s [Hd Hlt]. unfold close_view, modify, unconnect. simpl.
  split.
  - split; [|assumption]. intros cb Hin. simpl in Hin.
    apply filter_In in Hin. now apply Hd.
  - exists []. rewrite app_nil_r. split; [reflexivity|apply quiet_nil].
Qed.

Lemma keeps_run (KwikModel : option string -> option Model.t) (op : Op) :
  keeps v (run KwikModel op).
Proof.
  destruct op as [fn mo|cl|cl|sp|cl g| | | |u]; simpl.
  - unfold open. apply keeps_bind.
    + destruct mo; [apply keeps_ret|].
      destruct (KwikModel fn); [apply keeps_ret|apply keeps_raise].
    + intros m.
      apply keeps_bind; [apply keeps_modify; now repeat split|]. intros _.
      apply keeps_bind; [apply keeps_modify; now repeat split|]. intros _.
      apply keeps_emit.
  - unfold select.
    apply keeps_bind; [apply keeps_getattr|]. intros sel.
    apply keeps_bind; [apply keeps_modify; now repeat split|]. intros _.
    apply keeps_emit.
  - unfold merge.
    apply keeps_bind; [apply keeps_on_clustering|]. intros up.
    apply keeps_emit.
  - unfold split.
    apply keeps_bind; [apply keeps_on_clustering|]. intros up.
    apply keeps_emit.
  - unfold move.
    apply keeps_bind; [apply keeps_getattr|]. intros md.
    destruct (ClusterMetadata.set_group cl g md) as [up md'].
    apply keeps_bind; [apply keeps_set_metadata|]. intros _.
    apply keeps_emit.
  - unfold undo.
    apply keeps_bind; [apply keeps_on_history|]. intros up.
    apply keeps_emit.
  - unfold redo.
    apply keeps_bind; [apply keeps_on_history|]. intros up.
    apply keeps_emit.
  - apply keeps_bind; [apply keeps_show_waveforms|]. intros _.
    apply keeps_ret.
  - apply keeps_close_view.
Qed.

Lemma keeps_after_all (KwikModel : option string -> option Model.t)
    (ops : list Op) :
  forall s,
    closed v s ->
    closed v (after_all KwikModel ops s)
    /\ exists tr,
         trace (after_all KwikModel ops s) = trace s ++ tr /\ quiet v tr.
Proof.
  induction ops as [|op r IH]; intros s Hcl.
  - split; [exact Hcl|]. exists []. rewrite app_nil_r.
    split; [reflexivity|apply quiet_nil].
  - change (after_all KwikModel (op :: r) s)
      with (after_all KwikModel r (after KwikModel op s)).
    destruct (keeps_run KwikModel op s Hcl) as [Hcl1 [tr1 [Htr1 Hq1]]].
    destruct (IH (after KwikModel op s) Hcl1) as [Hcl2 [tr2 [Htr2 Hq2]]].
    split; [exact Hcl2|]. exists (tr1 ++ tr2). split.
    + unfold after in *. now rewrite Htr2, Htr1, app_assoc.
    + now apply quiet_app.
Qed.

End Keeps.

(** X6.  Once a view is closed, the session has done with it: whatever
    calls follow, in any number and whether they return or raise, no
    closure of that view is called again and none is registered again. *)
Theorem X6_a_closed_view_is_not_called_again
    (KwikModel : option string -> option Model.t)
    (s : t) (v : nat) (ops : list Op) :
  (v < length (views s))%nat ->
  let s' := after KwikModel (Close_view v) s in
  let s'' := after_all KwikModel ops s' in
  detached v s''
  /\ exists tr, trace s'' = trace s' ++ tr /\ quiet v tr.
Proof.
  intros Hlt s' s''.
  assert (Hcl : closed v s').
  { split.
    - intros cb Hin Hview. unfold s', after in Hin. simpl in Hin.
      apply filter_In in Hin. destruct Hin as [_ Hnot].
      apply (proj2 (in_closures cb v)) in Hview.
      unfold closures in Hview. simpl in Hview.
      rewrite Hview in Hnot. discriminate.
    - unfold s', after. simpl. exact Hlt. }
  destruct (keeps_after_all v KwikModel ops s' Hcl) as [Hcl' Htr].
  split; [exact (proj1 Hcl')|exact Htr].
Qed.

(** X6 on the scenario: the view is closed, then the dataset is opened
    again, a cluster is selected, a merge is asked for and a second view
    is made. *)
Lemma X6_a_closed_view_is_not_called_again_witness :
  let s := Example.viewed in
  let ops := [Open None (Some Example.model0); Select [1]; Merge [1; 2];
              Show_waveforms] in
  let s' := after Example.no_file (Close_view 0) s in
  let s'' := after_all Example.no_file ops s' in
  detached 0 s''
  /\ exists tr, trace s'' = trace s' ++ tr /\ quiet 0 tr.
Proof.
  apply (X6_a_closed_view_is_not_called_again Example.no_file
           Example.viewed 0).
  simpl. lia.
Defined.

(** ** Selecting clusters *)

Lemma length_eqb_0 {A : Type} (l : list A) :
  (length l =? 0)%nat = false <-> l <> [].
Proof.
  destruct l; simpl; split; congruence.
Qed.

(** The closure [on_select] when the selected spikes have their rows. *)
Lemma view_on_select_rows (v : nat) (sel : Selector.t) (m : Model.t)
    (w k : list Z) (s : t) :
  selector s = Some sel ->
  model s = Some m ->
  Selector.selected_spikes sel <> [] ->
  take_rows (Model.waveforms m) (Selector.selected_spikes sel) = Some w ->
  take_rows (Model.masks m) (Selector.selected_spikes sel) = Some k ->
  view_on_select v s
  = (inr tt,
     with_views
       (update_nth v
          (WaveformView.on_select w k (Selector.selected_spikes sel))
          (views s)) s).
Proof.
  intros Hsel Hm Hsome Hw Hk. apply length_eqb_0 in Hsome.
  cbv [view_on_select bind getattr update_view modify index ret].
  rewrite Hsel, Hsome, Hm, Hw. simpl. rewrite Hm, Hk. simpl.
  now rewrite update_nth_on_select.
Qed.

(** The closure [on_select] when a selected spike has no row in the
    waveforms: it raises at its first assignment. *)
Lemma view_on_select_no_waveforms (v : nat) (sel : Selector.t)
    (m : Model.t) (s : t) :
  selector s = Some sel ->
  model s = Some m ->
  Selector.selected_spikes sel <> [] ->
  take_rows (Model.waveforms m) (Selector.selected_spikes sel) = None ->
  view_on_select v s = (inl IndexError, s).
Proof.
  intros Hsel Hm Hsome Hw. apply length_eqb_0 in Hsome.
  cbv [view_on_select bind getattr update_view modify index ret raise].
  now rewrite Hsel, Hsome, Hm, Hw.
Qed.

(** The closure [on_select] when the waveforms have the rows and the
    masks have not: it raises at its second assignment, the waveforms
    being already in the view. *)
Lemma view_on_select_no_masks (v : nat) (sel : Selector.t) (m : Model.t)
    (w : list Z) (s : t) :
  selector s = Some sel ->
  model s = Some m ->
  Selector.selected_spikes sel <> [] ->
  take_rows (Model.waveforms m) (Selector.selected_spikes sel) = Some w ->
  take_rows (Model.masks m) (Selector.selected_spikes sel) = None ->
  view_on_select v s
  = (inl IndexError,
     with_views (update_nth v (WaveformView.set_waveforms w) (views s)) s).
Proof.
  intros Hsel Hm Hsome Hw Hk. apply length_eqb_0 in Hsome.
  cbv [view_on_select bind getattr update_view modify index ret raise].
  rewrite Hsel, Hsome, Hm, Hw. simpl. now rewrite Hm, Hk.
Qed.

(** A [select] event when no spike is selected: the closures of the views
    return at once. *)
Lemma deliver_views_select_none (vcbs : list Callback) (sel : Selector.t) :
  forallb is_view_cb vcbs = true ->
  Selector.selected_spikes sel = [] ->
  forall s,
    selector s = Some sel ->
    deliver vcbs Select_event s
    = (inr tt, with_trace (trace s ++ calls vcbs Select_event) s).
Proof.
  intros Hall Hnone. induction vcbs as [|cb r IH]; intros s Hsel.
  - simpl. unfold calls. simpl. rewrite app_nil_r.
    now rewrite with_trace_same.
  - simpl in Hall. apply andb_true_iff in Hall. destruct Hall as [Hcb Hr].
    rewrite deliver_cons, calls_cons.
    destruct cb as [| |u|u|u]; try discriminate.
    + cbv [notify handles ret]. now rewrite IH.
    + cbv [notify handles ret]. now rewrite IH.
    + cbv [notify handles run_callback view_on_select bind log modify
           getattr ret].
      simpl. rewrite Hsel, Hnone. simpl.
      rewrite IH by assumption. simpl. now rewrite <- app_assoc.
Qed.

(** A [select] event when the selected spikes have their rows in the
    arrays of the model: each [on_select] closure fills its view. *)
Lemma deliver_views_select_rows (vcbs : list Callback) (sel : Selector.t)
    (m : Model.t) (w k : list Z) :
  forallb is_view_cb vcbs = true ->
  Selector.selected_spikes sel <> [] ->
  take_rows (Model.waveforms m) (Selector.selected_spikes sel) = Some w ->
  take_rows (Model.masks m) (Selector.selected_spikes sel) = Some k ->
  forall s,
    selector s = Some sel ->
    model s = Some m ->
    deliver vcbs Select_event s
    = (inr tt,
       with_views
         (reselect
            (WaveformView.on_select w k (Selector.selected_spikes sel))
            vcbs (views s))
         (with_trace (trace s ++ calls vcbs Select_event) s)).
Proof.
  intros Hall Hsome Hw Hk.
  induction vcbs as [|cb r IH]; intros s Hsel Hm.
  - simpl. unfold calls. simpl. rewrite app_nil_r. now destruct s.
  - simpl in Hall. apply andb_true_iff in Hall. destruct Hall as [Hcb Hr].
    rewrite deliver_cons, calls_cons.
    destruct cb as [| |u|u|u]; try discriminate.
    + cbv [notify handles ret]. now rewrite IH.
    + cbv [notify handles ret]. now rewrite IH.
    + cbv [notify handles run_callback]. unfold bind, log, modify.
      rewrite (view_on_select_rows u sel m w k) by assumption.
      rewrite IH by assumption. simpl. now rewrite <- app_assoc.
Qed.

(** A [select] event reaches the first [on_select] closure and no
    other when that closure raises. *)
Lemma deliver_views_select_first (vcbs : list Callback) (v0 : nat)
    (x : Exn) (s s1 : t) :
  forallb is_view_cb vcbs = true ->
  first_on_select vcbs = Some v0 ->
  view_on_select v0
    (with_trace (trace s ++ [Called (View_on_select v0) Select_event]) s)
  = (inl x, s1) ->
  deliver vcbs Select_event s = (inl x, s1).
Proof.
  intros Hall Hfirst Hraise.
  induction vcbs as [|cb r IH]; [discriminate|].
  simpl in Hall. apply andb_true_iff in Hall. destruct Hall as [Hcb Hr].
  rewrite deliver_cons.
  destruct cb as [| |u|u|u]; try discriminate.
  - cbv [notify handles ret]. now apply IH.
  - cbv [notify handles ret]. now apply IH.
  - simpl in Hfirst. injection Hfirst as ->.
    cbv [notify handles run_callback]. unfold bind, log, modify.
    now rewrite Hraise.
Qed.

Lemma reselect_length (f : WaveformView.t -> WaveformView.t)
    (cbs : list Callback) (vs : list WaveformView.t) :
  length (reselect f cbs vs) = length vs.
Proof.
  revert vs. induction cbs as [|cb r IH]; intros vs; [reflexivity|].
  destruct cb; simpl; rewrite IH; try reflexivity.
  apply update_nth_length.
Qed.

Lemma reselect_keeps (spikes : list SpikeId) (w k : list Z)
    (cbs : list Callback) (v : nat) :
  forall vs,
    (exists x, nth_error vs v = Some x /\ displays spikes w k x) ->
    exists x,
      nth_error (reselect (WaveformView.on_select w k spikes) cbs vs) v
      = Some x
      /\ displays spikes w k x.
Proof.
  induction cbs as [|cb r IH]; intros vs Hx; [exact Hx|].
  destruct cb as [| |u|u|u]; simpl; try now apply IH.
  apply IH. destruct Hx as [x [Hn Hd]].
  destruct (Nat.eq_dec u v) as [->|Hne].
  - rewrite update_nth_same, Hn. simpl. eexists. split; [reflexivity|].
    repeat split.
  - rewrite update_nth_other by assumption. now exists x.
Qed.

Lemma reselect_sets (spikes : list SpikeId) (w k : list Z)
    (cbs : list Callback) (v : nat) :
  forall vs,
    In (View_on_select v) cbs ->
    (v < length vs)%nat ->
    exists x,
      nth_error (reselect (WaveformView.on_select w k spikes) cbs vs) v
      = Some x
      /\ displays spikes w k x.
Proof.
  induction cbs as [|cb r IH]; intros vs Hin Hlt; [destruct Hin|].
  destruct Hin as [->|Hin].
  - simpl. apply reselect_keeps.
    destruct (nth_error vs v) as [x|] eqn:Hn.
    + rewrite update_nth_same, Hn. simpl. eexists. split; [reflexivity|].
      repeat split.
    + apply nth_error_None in Hn. lia.
  - destruct cb as [| |u|u|u]; simpl; try now apply IH.
    apply IH; [assumption|]. now rewrite update_nth_length.
Qed.

(** [select] up to the delivery to the views. *)
Lemma select_unfold (KwikModel : option string -> option Model.t)
    (s : t) (vcbs : list Callback) (sel : Selector.t)
    (clusters : list ClusterId) :
  _callbacks s = Session_on_open :: Session_on_cluster :: vcbs ->
  selector s = Some sel ->
  run KwikModel (Select clusters) s
  = deliver vcbs Select_event
      (with_trace (trace s ++ [Emitted Select_event])
         (with_selector (Selector.set_selected_clusters clusters sel) s)).
Proof.
  intros Hcbs Hsel. simpl. cbv [select bind getattr modify].
  rewrite Hsel, emit_unfold. simpl. rewrite Hcbs.
  rewrite deliver_cons. cbv [notify handles ret].
  rewrite deliver_cons. cbv [notify handles ret]. reflexivity.
Qed.

Lemma calls_select (vcbs : list Callback) :
  calls (Session_on_open :: Session_on_cluster :: vcbs) Select_event
  = calls vcbs Select_event.
Proof. reflexivity. Qed.

(** X7.  When the clusters selected hold no spike, [select] returns, the
    selection is set, every [on_select] observer is called, and nothing
    else changes: the views keep what they display. *)
Theorem X7_select_without_spikes_leaves_the_views
    (KwikModel : option string -> option Model.t)
    (s : t) (sel : Selector.t) (clusters : list ClusterId) :
  reachable KwikModel s ->
  selector s = Some sel ->
  Selector.selected_spikes (Selector.set_selected_clusters clusters sel)
  = [] ->
  run KwikModel (Select clusters) s
  = (inr tt,
     with_trace
       (trace s ++ Emitted Select_event :: calls (_callbacks s) Select_event)
       (with_selector (Selector.set_selected_clusters clusters sel) s)).
Proof.
  intros Hr Hsel Hnone. apply reachable_inv in Hr.
  destruct (inv_cases s Hr) as [vcbs [Hcbs [Hv _]]].
  rewrite (select_unfold KwikModel s vcbs sel clusters Hcbs Hsel).
  rewrite (deliver_views_select_none vcbs _ Hv Hnone) by reflexivity.
  rewrite Hcbs, calls_select. simpl. now rewrite <- app_assoc.
Qed.

(** X7 on the scenario's dataset with a view, before any merge: cluster
    3 is selected, which holds no spike. *)
Lemma X7_select_without_spikes_leaves_the_views_witness :
  let s := Example.watched in
  let sel := Selector.init [1; 1; 2; 2] 100 in
  run Example.no_file (Select [3]) s
  = (inr tt,
     with_trace
       (trace s ++ Emitted Select_event :: calls (_callbacks s) Select_event)
       (with_selector (Selector.set_selected_clusters [3] sel) s)).
Proof.
  apply (X7_select_without_spikes_leaves_the_views Example.no_file
           Example.watched (Selector.init [1; 1; 2; 2] 100) [3]).
  - do 2 apply reachable_step. apply reachable_init.
  - reflexivity.
  - reflexivity.
Defined.

(** X8.  When the selected spikes all have a row in the waveforms and in
    the masks of the model, [select] returns and every view whose
    [on_select] closure is connected displays these spikes with their
    waveforms and masks. *)
Theorem X8_select_fills_the_connected_views
    (KwikModel : option string -> option Model.t)
    (s : t) (sel : Selector.t) (m : Model.t) (clusters : list ClusterId)
    (w k : list Z) :
  reachable KwikModel s ->
  selector s = Some sel ->
  model s = Some m ->
  let sel' := Selector.set_selected_clusters clusters sel in
  let spikes := Selector.selected_spikes sel' in
  spikes <> [] ->
  take_rows (Model.waveforms m) spikes = Some w ->
  take_rows (Model.masks m) spikes = Some k ->
  let s' := after KwikModel (Select clusters) s in
  fst (run KwikModel (Select clusters) s) = inr tt
  /\ selector s' = Some sel'
  /\ forall v,
       In (View_on_select v) (_callbacks s) ->
       exists x, nth_error (views s') v = Some x /\ displays spikes w k x.
Proof.
  intros Hr Hsel Hm sel' spikes Hsome Hw Hk s'.
  apply reachable_inv in Hr.
  destruct (inv_cases s Hr) as [vcbs [Hcbs [Hv [Hidx _]]]].
  unfold s', after.
  rewrite (select_unfold KwikModel s vcbs sel clusters Hcbs Hsel).
  rewrite (deliver_views_select_rows vcbs sel' m w k Hv Hsome Hw Hk)
    by (reflexivity || assumption).
  repeat apply conj; try reflexivity.
  intros v Hin. simpl. rewrite Hcbs in Hin.
  destruct Hin as [Hin|[Hin|Hin]]; try discriminate.
  apply reselect_sets; [assumption|].
  now apply (Hidx (View_on_select v) v).
Qed.

(** X8 on the scenario's dataset with a view, before any merge: cluster
    1 is selected. *)
Lemma X8_select_fills_the_connected_views_witness :
  let s := Example.watched in
  let s' := after Example.no_file (Select [1]) s in
  fst (run Example.no_file (Select [1]) s) = inr tt
  /\ selector s' = Some (Selector.mk [1; 1; 2; 2] 100 [1])
  /\ forall v,
       In (View_on_select v) (_callbacks s) ->
       exists x, nth_error (views s') v = Some x
                 /\ displays [0%nat; 1%nat] [10; 11] [0; 0] x.
Proof.
  apply (X8_select_fills_the_connected_views Example.no_file Example.watched
           (Selector.init [1; 1; 2; 2] 100) Example.model0 [1]
           [10; 11] [0; 0]).
  - do 2 apply reachable_step. apply reachable_init.
  - reflexivity.
  - reflexivity.
  - simpl. discriminate.
  - reflexivity.
  - reflexivity.
Defined.

Lemma first_on_select_session (vcbs : list Callback) :
  first_on_select (Session_on_open :: Session_on_cluster :: vcbs)
  = first_on_select vcbs.
Proof. reflexivity. Qed.

(** X9.  [select] is not undone when an observer raises.  With a view
    connected and a selected spike that has no row in the waveforms of
    the model, [select] raises [IndexError] out of the first [on_select]
    closure: the selection has been set all the same, and the views are
    as before.  When the waveforms have the rows and the masks have not,
    [select] raises as well, and the view of that closure has already
    been given the new waveforms, next to its old masks and spikes. *)
Theorem X9_select_keeps_the_selection_when_a_view_raises
    (KwikModel : option string -> option Model.t)
    (s : t) (sel : Selector.t) (m : Model.t) (clusters : list ClusterId)
    (v0 : nat) :
  reachable KwikModel s ->
  selector s = Some sel ->
  model s = Some m ->
  first_on_select (_callbacks s) = Some v0 ->
  let sel' := Selector.set_selected_clusters clusters sel in
  let spikes := Selector.selected_spikes sel' in
  spikes <> [] ->
  let s' := with_trace
              (trace s ++ [Emitted Select_event;
                           Called (View_on_select v0) Select_event])
              (with_selector sel' s) in
  (take_rows (Model.waveforms m) spikes = None ->
   run KwikModel (Select clusters) s = (inl IndexError, s'))
  /\ (forall w,
        take_rows (Model.waveforms m) spikes = Some w ->
        take_rows (Model.masks m) spikes = None ->
        run KwikModel (Select clusters) s
        = (inl IndexError,
           with_views
             (update_nth v0 (WaveformView.set_waveforms w) (views s)) s')).
Proof.
  intros Hr Hsel Hm Hfirst sel' spikes Hsome s'.
  apply reachable_inv in Hr.
  destruct (inv_cases s Hr) as [vcbs [Hcbs [Hv _]]].
  rewrite (select_unfold KwikModel s vcbs sel clusters Hcbs Hsel).
  rewrite Hcbs, first_on_select_session in Hfirst.
  split.
  - intros Hw.
    apply (deliver_views_select_first vcbs v0); [assumption..|].
    rewrite (view_on_select_no_waveforms v0 sel' m)
      by (reflexivity || assumption).
    unfold s'. simpl. now rewrite <- app_assoc.
  - intros w Hw Hk.
    apply (deliver_views_select_first vcbs v0); [assumption..|].
    rewrite (view_on_select_no_masks v0 sel' m w)
      by (reflexivity || assumption).
    unfold s'. simpl. now rewrite <- app_assoc.
Qed.

(** X9 on a dataset with waveforms for all four spikes and a mask for the
    first one only: cluster 1, which holds spikes 0 and 1, is selected
    while a view is connected. *)
Lemma X9_select_keeps_the_selection_when_a_view_raises_witness :
  let s := ShortExample.masked_viewed in
  let s' := with_trace
              (trace s ++ [Emitted Select_event;
                           Called (View_on_select 0) Select_event])
              (with_selector (Selector.mk [1; 1; 2; 2] 100 [1]) s) in
  run Example.no_file (Select [1]) s
  = (inl IndexError,
     with_views
       (update_nth 0 (WaveformView.set_waveforms [10; 11]) (views s)) s').
Proof.
  destruct (X9_select_keeps_the_selection_when_a_view_raises
              Example.no_file ShortExample.masked_viewed
              (Selector.init [1; 1; 2; 2] 100)
              ShortExample.masked_model [1] 0) as [_ Hmasks].
  - do 2 apply reachable_step. apply reachable_init.
  - reflexivity.
  - reflexivity.
  - reflexivity.
  - simpl. discriminate.
  - apply (Hmasks [10; 11]); reflexivity.
Defined.

(** X10.  [show_waveforms] on an opened session connects its three
    closures and makes a view that shows the current assignment of the
    clustering, the metadata and the channel positions.  With no spike
    selected the view has no waveforms; with spikes selected that all
    have their rows it displays them.  With a row of the waveforms
    missing [show_waveforms] raises [IndexError], the view and its
    closures remaining; with the rows of the waveforms there and a row of
    the masks missing it raises as well, and the view that remains has
    been given the waveforms. *)
Theorem X10_show_waveforms_on_an_opened_session
    (s : t) (m : Model.t) (c : Clustering.t) (sel : Selector.t) :
  model s = Some m ->
  clustering s = Some c ->
  cluster_metadata s = Some metadata_of_model ->
  selector s = Some sel ->
  let v := length (views s) in
  let spikes := Selector.selected_spikes sel in
  let w1 := WaveformView.on_open (Clustering.spike_clusters c)
              (Model.cluster_metadata m) (Model.probe_positions m)
              (WaveformView.show
                 (WaveformView.init (backend_is_qt (_backend s)))) in
  let made := fun x =>
    with_views (views s ++ [x])
      (with_callbacks (_callbacks s ++ closures v) s) in
  (spikes = [] -> show_waveforms s = (inr v, made w1))
  /\ (forall w k,
        spikes <> [] ->
        take_rows (Model.waveforms m) spikes = Some w ->
        take_rows (Model.masks m) spikes = Some k ->
        show_waveforms s
        = (inr v, made (WaveformView.on_select w k spikes w1)))
  /\ (spikes <> [] ->
      take_rows (Model.waveforms m) spikes = None ->
      show_waveforms s = (inl IndexError, made w1))
  /\ (forall w,
        spikes <> [] ->
        take_rows (Model.waveforms m) spikes = Some w ->
        take_rows (Model.masks m) spikes = None ->
        show_waveforms s
        = (inl IndexError, made (WaveformView.set_waveforms w w1))).
Proof.
  intros Hm Hc Hmd Hsel v spikes w1 made.
  assert (Hstart : show_waveforms s
                   = (view_on_select v ;;; ret v) (made w1)).
  { rewrite show_waveforms_unfold. fold v.
    cbv [bind view_on_open gets getattr update_view modify metadata].
    simpl. rewrite Hm. simpl. rewrite Hc. simpl. rewrite Hmd, Hm. simpl.
    unfold v. rewrite update_nth_app_last. reflexivity. }
  assert (Hsel' : selector (made w1) = Some sel) by exact Hsel.
  assert (Hm' : model (made w1) = Some m) by exact Hm.
  rewrite Hstart. unfold bind. repeat apply conj.
  - intros Hnone.
    cbv [view_on_select bind getattr ret]. rewrite Hsel'.
    fold spikes. now rewrite Hnone.
  - intros w k Hsome Hw Hk.
    rewrite (view_on_select_rows v sel m w k) by assumption.
    simpl. unfold v. now rewrite update_nth_app_last.
  - intros Hsome Hw.
    now rewrite (view_on_select_no_waveforms v sel m) by assumption.
  - intros w Hsome Hw Hk.
    rewrite (view_on_select_no_masks v sel m w) by assumption.
    simpl. unfold v. now rewrite update_nth_app_last.
Qed.

(** X10 on the scenario's dataset right after it is opened, with cluster
    1 selected: the view shows the assignment of the dataset and the
    waveforms of spikes 0 and 1. *)
Lemma X10_show_waveforms_on_an_opened_session_witness :
  let s := after Example.no_file (Select [1]) Example.opened in
  let w1 := WaveformView.on_open [1; 1; 2; 2] [(1, 0); (2, 0)] []
              (WaveformView.show (WaveformView.init true)) in
  show_waveforms s
  = (inr 0%nat,
     with_views
       (views s
        ++ [WaveformView.on_select [10; 11] [0; 0] [0%nat; 1%nat] w1])
       (with_callbacks (_callbacks s ++ closures 0) s)).
Proof.
  destruct (X10_show_waveforms_on_an_opened_session
              (after Example.no_file (Select [1]) Example.opened)
              Example.model0 (Clustering.init [1; 1; 2; 2])
              (Selector.mk [1; 1; 2; 2] 100 [1])
              eq_refl eq_refl eq_refl eq_refl) as [_ [Hrows _]].
  apply (Hrows [10; 11] [0; 0]).
  - simpl. discriminate.
  - reflexivity.
  - reflexivity.
Defined.

(** ** The cluster view and the entry point *)

Section NotebookFacts.

Variable Color : Type.
Variable color : ClusterId -> ClusterMetadata.t -> Color.
Variable in_ipython : bool.
Variable KwikModel : option string -> option Model.t.
Variable enable_notebook : option string -> option Exn.

Lemma cluster_colors_ok (md : ClusterMetadata.t) (s : t)
    (ids : list ClusterId) :
  metadata s = Some md ->
  Notebook.cluster_colors Color color ids s
  = (inr (map (fun cluster => color cluster md) ids), s).
Proof.
  intros Hmd. induction ids as [|x r IH]; [reflexivity|].
  simpl. cbv [bind getattr ret]. now rewrite Hmd, IH.
Qed.

Lemma show_clusters_ok (s : t) (c : Clustering.t)
    (md : ClusterMetadata.t) :
  clustering s = Some c ->
  metadata s = Some md ->
  Notebook.show_clusters Color color in_ipython s
  = (inr (if in_ipython
          then Some (Notebook.mkClusterView Color
                       (Clustering.cluster_ids c)
                       (map (fun cluster => color cluster md)
                          (Clustering.cluster_ids c)))
          else None), s).
Proof.
  intros Hc Hmd. unfold Notebook.show_clusters.
  cbv [bind getattr]. rewrite Hc.
  rewrite (cluster_colors_ok md) by assumption. rewrite Hc.
  now destruct in_ipython.
Qed.

(** X11.  [show_clusters] never changes the session.  Before [open] it
    raises [AttributeError] for the clustering.  On an opened session it
    does not raise: in IPython it answers with a view of the cluster ids
    in use with one colour for each, taken from the metadata; outside
    IPython it answers [None]. *)
Theorem X11_show_clusters_reads_only (s : t) :
  reachable KwikModel s ->
  (clustering s = None ->
   Notebook.show_clusters Color color in_ipython s
   = (inl (AttributeError "clustering"), s))
  /\ (forall c,
        clustering s = Some c ->
        exists md,
          metadata s = Some md
          /\ Notebook.show_clusters Color color in_ipython s
             = (inr (if in_ipython
                     then Some (Notebook.mkClusterView Color
                                  (Clustering.cluster_ids c)
                                  (map (fun cluster => color cluster md)
                                     (Clustering.cluster_ids c)))
                     else None), s)).
Proof.
  intros Hr. split.
  - intros Hc. unfold Notebook.show_clusters. cbv [bind getattr].
    now rewrite Hc.
  - intros c Hc.
    destruct (reachable_opened _ _ _ Hr Hc)
      as [vcbs [m [h [sel [_ [_ [Hop _]]]]]]].
    destruct Hop as [Hm [_ [_ [Hmd _]]]].
    exists (Model.cluster_metadata m).
    assert (Hmeta : metadata s = Some (Model.cluster_metadata m)).
    { unfold metadata. now rewrite Hmd, Hm. }
    split; [assumption|]. now apply show_clusters_ok.
Qed.

(** X12.  [start_manual_clustering] takes the session handed in, or
    makes one with the [backend] argument, and calls [enable_notebook]
    with that argument in both cases.  When [enable_notebook] raises,
    the exception goes to the caller and nothing was opened.  When it
    returns and the file does not load, the call raises [IOError] and
    the session is as it was.  When it returns and a model loads, the
    call returns a session opened on that model, with an empty history,
    which is reachable, so that all that holds of reachable sessions
    holds of it; the callbacks and the backend of the session are as
    before the call. *)
Theorem X12_start_manual_clustering_opens
    (fn : option string) (mo : option Model.t) (session : option t)
    (backend : option string) :
  (forall s0, session = Some s0 -> reachable KwikModel s0) ->
  let r := Notebook.start_manual_clustering Color color in_ipython
             KwikModel enable_notebook fn mo session backend in
  let s := match session with
           | None => __init__ backend
           | Some s0 => s0
           end in
  (forall e, enable_notebook backend = Some e -> r = (inl e, s))
  /\ (enable_notebook backend = None ->
      mo = None -> KwikModel fn = None ->
      r = (inl IOError, s))
  /\ (forall m,
        enable_notebook backend = None ->
        loads KwikModel fn mo m ->
        fst r = inr tt
        /\ reachable KwikModel (snd r)
        /\ model (snd r) = Some m
        /\ substate (snd r)
           = (Some GlobalHistory.empty,
              Some (Clustering.init (Model.spike_clusters m)),
              Some (Model.cluster_metadata m),
              Some (Selector.init (Model.spike_clusters m) 100))
        /\ _callbacks (snd r) = _callbacks s
        /\ _backend (snd r) = _backend s).
Proof.
  intros Hsession r s.
  assert (Hr : reachable KwikModel s).
  { unfold s. destruct session as [s0|]; [now apply Hsession|].
    apply reachable_init. }
  assert (Hrun : r = match enable_notebook backend with
                     | Some e => (inl e, s)
                     | None =>
                         (open KwikModel fn mo ;;;
                          Notebook.show_clusters Color color in_ipython ;;;
                          ret tt) s
                     end) by reflexivity.
  repeat apply conj.
  - intros e He. now rewrite Hrun, He.
  - intros He -> Hk. rewrite Hrun, He. unfold bind at 1.
    now rewrite open_fail.
  - intros m He Hload. pose proof (reachable_inv _ _ Hr) as Hinv.
    destruct (inv_cases s Hinv) as [vcbs [Hcbs [Hv _]]].
    pose proof (open_ok KwikModel s vcbs fn mo m Hcbs Hv Hload) as Hopen.
    assert (Hr' : reachable KwikModel (opened_on fn m vcbs s)).
    { replace (opened_on fn m vcbs s)
        with (after KwikModel (Open fn mo) s);
        [now apply reachable_step|].
      unfold after. simpl run. now rewrite Hopen. }
    assert (Hr2 : r = (inr tt, opened_on fn m vcbs s)).
    { rewrite Hrun, He. unfold bind at 1. rewrite Hopen. unfold bind.
      rewrite (show_clusters_ok (opened_on fn m vcbs s)
                 (Clustering.init (Model.spike_clusters m))
                 (Model.cluster_metadata m)) by reflexivity.
      reflexivity. }
    rewrite Hr2. cbn [fst snd].
    repeat apply conj; try reflexivity; assumption.
Qed.

End NotebookFacts.

(** X11 on the scenario after the merge, in IPython, with the cluster id
    itself standing for its colour. *)
Lemma X11_show_clusters_reads_only_witness :
  let s := Example.merged in
  exists md,
    metadata s = Some md
    /\ Notebook.show_clusters Z (fun cluster _ => cluster) true s
       = (inr (Some (Notebook.mkClusterView Z [3] [3])), s).
Proof.
  destruct (X11_show_clusters_reads_only Z (fun cluster _ => cluster) true
              Example.no_file Example.merged) as [_ Hopened].
  - do 2 apply reachable_step. apply reachable_init.
  - apply (Hopened (Clustering.mk [3; 3; 3; 3] 4)). reflexivity.
Defined.

(** X12 with no session handed in, the scenario's dataset and a
    notebook interface that comes up. *)
Lemma X12_start_manual_clustering_opens_witness :
  let r := Notebook.start_manual_clustering Z (fun cluster _ => cluster)
             true Example.no_file (fun _ => None) None
             (Some Example.model0) None (Some "pyqt4"%string) in
  fst r = inr tt
  /\ reachable Example.no_file (snd r)
  /\ model (snd r) = Some Example.model0
  /\ substate (snd r)
     = (Some GlobalHistory.empty,
        Some (Clustering.init [1; 1; 2; 2]),
        Some [(1, 0); (2, 0)],
        Some (Selector.init [1; 1; 2; 2] 100))
  /\ _callbacks (snd r) = [Session_on_open; Session_on_cluster]
  /\ _backend (snd r) = Some "pyqt4"%string.
Proof.
  destruct (X12_start_manual_clustering_opens Z (fun cluster _ => cluster)
              true Example.no_file (fun _ => None) None
              (Some Example.model0) None (Some "pyqt4"%string))
    as [_ [_ Hok]].
  - intros s0 Heq. discriminate.
  - apply (Hok Example.model0).
    + reflexivity.
    + left. reflexivity.
Defined.

(** ** Registering actions *)

Section ActionFacts.
Import BaseSession.






(** X14.  A function named [_actions] can be registered: it is appended
    to the list, and then [setattr] binds it in the place of the list.
    From then on every registration raises [AttributeError], for
    [append], and changes nothing. *)
Theorem X14_a_function_named_like_the_list_replaces_it
    (f g : Func) (title title' : option string) (s : BaseSession.t)
    (acts : list (Func * option string)) :
  lookup "_actions" s = Some (a_list acts) ->
  func_name f = "_actions"%string ->
  let s1 := snd (action (a_func f) title s) in
  fst (action (a_func f) title s) = inr (registered f)
  /\ lookup "_actions" s1 = Some (a_function f)
  /\ action (a_func g) title' s1 = (inl (AttributeError "append"), s1).
Proof.
  intros Hacts Hname. simpl. rewrite Hacts, Hname. simpl.
  repeat apply conj; reflexivity.
Qed.

(** X15.  A function named [action] can be registered as well; it then
    shadows the decorator: [session.action] is that function, and a
    caller who writes [session.action] no longer reaches the method. *)
Theorem X15_a_function_named_action_shadows_the_decorator
    (f g : Func) (title : option string) (u : Usage) (s : BaseSession.t)
    (acts : list (Func * option string)) :
  lookup "_actions" s = Some (a_list acts) ->
  func_name f = "action"%string ->
  let s1 := snd (action (a_func f) title s) in
  fst (action (a_func f) title s) = inr (registered f)
  /\ lookup "_actions" s1 = Some (a_list (acts ++ [(f, title)]))
  /\ lookup "action" s1 = Some (a_function f)
  /\ use u g s1 = None.
Proof.
  intros Hacts Hname. simpl. rewrite Hacts, Hname. simpl.
  repeat apply conj; reflexivity.
Qed.

End ActionFacts.


(** X14 on a new [BaseSession]: a function named [_actions], then any
    other. *)
Lemma X14_a_function_named_like_the_list_replaces_it_witness :
  let f := BaseSession.mkFunc "_actions" 0 in
  let g := BaseSession.mkFunc "merge" 1 in
  let s1 := snd (BaseSession.action (BaseSession.a_func f) None
                   BaseSession.__init__) in
  fst (BaseSession.action (BaseSession.a_func f) None BaseSession.__init__)
  = inr (BaseSession.registered f)
  /\ BaseSession.lookup "_actions" s1 = Some (BaseSession.a_function f)
  /\ BaseSession.action (BaseSession.a_func g) (Some "Merge"%string) s1
     = (inl (AttributeError "append"), s1).
Proof.
  apply (X14_a_function_named_like_the_list_replaces_it
           (BaseSession.mkFunc "_actions" 0) (BaseSession.mkFunc "merge" 1)
           None (Some "Merge"%string) BaseSession.__init__ []).
  - reflexivity.
  - reflexivity.
Defined.

(** X15 on a new [BaseSession]: a function named [action], then a
    registration written [@session.action(title='Merge')]. *)
Lemma X15_a_function_named_action_shadows_the_decorator_witness :
  let f := BaseSession.mkFunc "action" 0 in
  let g := BaseSession.mkFunc "merge" 1 in
  let s1 := snd (BaseSession.action (BaseSession.a_func f) None
                   BaseSession.__init__) in
  fst (BaseSession.action (BaseSession.a_func f) None BaseSession.__init__)
  = inr (BaseSession.registered f)
  /\ BaseSession.lookup "_actions" s1
     = Some (BaseSession.a_list [(f, None)])
  /\ BaseSession.lookup "action" s1 = Some (BaseSession.a_function f)
  /\ BaseSession.use (BaseSession.with_keyword (Some "Merge"%string)) g s1
     = None.
Proof.
  apply (X15_a_function_named_action_shadows_the_decorator
           (BaseSession.mkFunc "action" 0) (BaseSession.mkFunc "merge" 1)
           None (BaseSession.with_keyword (Some "Merge"%string))
           BaseSession.__init__ []).
  - reflexivity.
  - reflexivity.
Defined.
